(** * The Dual Scope lesson validator (english-resources-validate.py)

    A shallow embedding of the validator script and of the brace scanner of
    upload-answers.py, followed by the properties of the lesson-data
    extractor, the literal normalisation and the leak and integrity checks.

    Python text is a sequence of Unicode code points; the regular expressions
    of the scripts are values of a small pattern type, run by a backtracking
    matcher that follows the priority order of Python's [re] module. *)

From Stdlib Require Import Ascii String DecimalString.
From stdpp Require Import base numbers list strings gmap sorting.

Set Warnings "-register-all".
Local Open Scope N_scope.

(** ** Python text *)

Module Py.

(** A code point and a [str]. *)
Abbreviation pychar := N (only parsing).
Abbreviation pystr := (list N) (only parsing).

(** An ASCII literal of the scripts as a [str]. *)
Fixpoint lit (s : string) : pystr :=
  match s with
  | EmptyString => []
  | String a r => N_of_ascii a :: lit r
  end.

(** Lesson text in examples: an apostrophe stands for the double quote and a
    vertical bar for the line feed. *)
Fixpoint js (s : string) : pystr :=
  match s with
  | EmptyString => []
  | String a r =>
      let c := N_of_ascii a in
      (if c =? 39 then 34 else if c =? 124 then 10 else c) :: js r
  end.

Definition is_ascii (c : pychar) : bool := c <? 128.

(** [str.isspace] on one code point, which is also the class [\s] of a
    Unicode pattern. *)
Definition isspace (c : pychar) : bool :=
  ((9 <=? c) && (c <=? 13)) || ((28 <=? c) && (c <=? 32))
  || (c =? 133) || (c =? 160) || (c =? 5760)
  || ((8192 <=? c) && (c <=? 8202))
  || (c =? 8232) || (c =? 8233) || (c =? 8239) || (c =? 8287) || (c =? 12288).

Definition ascii_isalnum (c : pychar) : bool :=
  ((48 <=? c) && (c <=? 57)) || ((65 <=? c) && (c <=? 90))
  || ((97 <=? c) && (c <=? 122)).

Definition ascii_lower (c : pychar) : pychar :=
  if (65 <=? c) && (c <=? 90) then c + 32 else c.

Definition ascii_digit (c : pychar) : option N :=
  if (48 <=? c) && (c <=? 57) then Some (c - 48) else None.

(** ** JSON values, as [json.loads] builds them *)

(** Of a float the scripts use the truth value only. *)
Inductive json :=
| JNull
| JBool (b : bool)
| JInt (z : Z)
| JFloat (nonzero : bool)
| JStr (s : pystr)
| JArr (l : list json)
| JObj (kvs : list (pystr * json)).

(** ** Exceptions *)

Inductive exn :=
| AttributeError | TypeError | ValueError | RecursionError | OSError | UnicodeDecodeError
| UnicodeEncodeError.

Inductive result (A : Type) :=
| Ok (a : A)
| Raise (e : exn).
Arguments Ok {A} a.
Arguments Raise {A} e.

(** What the interpreter provides and the scripts do not define: the Unicode
    tables beyond ASCII, the JSON parser and the limit on the digits [int]
    reads.  On ASCII the tables are fixed above. *)
Class Runtime := {
  isalnum_ext : pychar -> bool;       (* str.isalnum beyond ASCII *)
  lower_ext : pystr -> pystr;         (* str.lower of a text with a non-ASCII code point *)
  digit_ext : pychar -> option N;     (* value of a decimal digit beyond ASCII *)
  (* json.loads: the value, the message of a JSONDecodeError, or another
     exception such as RecursionError *)
  json_loads : pystr -> result (json + pystr);
  int_max_str_digits : nat;           (* sys.get_int_max_str_digits(); 0 is no limit *)
  (* no alphanumeric code point is white space *)
  alnum_not_space : forall c, isalnum_ext c = true -> isspace c = false
}.

(** The order in which the interpreter iterates over a set of integers.  The
    language does not fix it: it comes from the hash table of the run. *)
Class SetOrder := {
  set_iter : gset N -> list N;
  set_iter_perm : forall s, set_iter s ≡ₚ elements s
}.

(** Standard output, and what [str] gives for the values the scripts do not
    build themselves. *)
Class Output := {
  encodable : pychar -> bool;   (* the encoding of sys.stdout has the code point *)
  str_ext : json -> pystr       (* str(v) for a float, a list or a dict *)
}.

Section Text.
Context {rt : Runtime}.

Definition isalnum (c : pychar) : bool :=
  if is_ascii c then ascii_isalnum c else isalnum_ext c.

(** The class [\w]: alphanumeric or underscore. *)
Definition isword (c : pychar) : bool := isalnum c || (c =? 95).

(** The class [\d], with the digit's value as [int] reads it. *)
Definition digit_value (c : pychar) : option N :=
  if is_ascii c then ascii_digit c else digit_ext c.

Definition isdigit (c : pychar) : bool :=
  match digit_value c with Some _ => true | None => false end.

(** [s.lower()]. *)
Definition lower (s : pystr) : pystr :=
  if forallb is_ascii s then map ascii_lower s else lower_ext s.

End Text.

Definition streq (a b : pystr) : bool := bool_decide (a = b).

(** The longest run of code points of a class at the head of a text is
    passed. *)
Fixpoint skip (p : pychar -> bool) (s : pystr) : pystr :=
  match s with
  | c :: t => if p c then skip p t else s
  | [] => []
  end.

(** [s.strip()]. *)
Definition lstrip (s : pystr) : pystr := skip isspace s.
Definition rstrip (s : pystr) : pystr := reverse (lstrip (reverse s)).
Definition strip (s : pystr) : pystr := rstrip (lstrip s).

(** [s.split()]: the maximal runs of non-space code points. *)
Fixpoint split_ws_go (cur : pystr) (s : pystr) : list pystr :=
  match s with
  | [] => match cur with [] => [] | _ => [reverse cur] end
  | c :: t =>
      if isspace c
      then match cur with
           | [] => split_ws_go [] t
           | _ => reverse cur :: split_ws_go [] t
           end
      else split_ws_go (c :: cur) t
  end.

Definition split_ws (s : pystr) : list pystr := split_ws_go [] s.

(** [s.split(sep)] for a separator of one code point: empty pieces are kept. *)
Fixpoint split_on_go (sep : pychar) (cur : pystr) (s : pystr) : list pystr :=
  match s with
  | [] => [reverse cur]
  | c :: t =>
      if c =? sep then reverse cur :: split_on_go sep [] t
      else split_on_go sep (c :: cur) t
  end.

Definition split_on (sep : pychar) (s : pystr) : list pystr := split_on_go sep [] s.

(** [c in s] for one code point. *)
Definition has_char (c : pychar) (s : pystr) : bool := existsb (fun x => x =? c) s.

Fixpoint starts_with (p s : pystr) : bool :=
  match p, s with
  | [], _ => true
  | a :: p', b :: s' => (a =? b) && starts_with p' s'
  | _ :: _, [] => false
  end.

(** [sub in s]. *)
Fixpoint contains (sub s : pystr) : bool :=
  starts_with sub s || match s with [] => false | _ :: t => contains sub t end.

(** [w in l] for a list of texts. *)
Definition mem (w : pystr) (l : list pystr) : bool := existsb (streq w) l.

(** [str(n)] for a natural number. *)
Definition str_of_N (n : N) : pystr := lit (NilEmpty.string_of_uint (N.to_uint n)).

(** [str(l)] for a list of integers, as in [[0, 2]]. *)
Fixpoint join_comma (l : list pystr) : pystr :=
  match l with
  | [] => []
  | [x] => x
  | x :: r => x ++ lit ", " ++ join_comma r
  end.

Definition repr_list (l : list N) : pystr :=
  lit "[" ++ join_comma (map str_of_N l) ++ lit "]".

(** ** Sequencing calls that may raise *)

Definition bind {A B : Type} (m : result A) (k : A -> result B) : result B :=
  match m with
  | Ok a => k a
  | Raise e => Raise e
  end.

Notation "'do' x <- m ; k" := (bind m (fun x => k))
  (at level 10, x name, m at level 100, k at level 200).

(** [print(s)]: the text and a line feed are encoded for standard output.
    The text written is left out, the exception is kept. *)
Definition print {out : Output} (s : pystr) : result unit :=
  if forallb encodable (s ++ [10]) then Ok tt else Raise UnicodeEncodeError.

(** [for x in l: f(x)] *)
Fixpoint for_each {A : Type} (f : A -> result unit) (l : list A) : result unit :=
  match l with
  | [] => Ok tt
  | x :: r =>
      do _ <- f x;
      for_each f r
  end.

(** [issues.extend(f(x))] for each [x] of a list, in order. *)
Fixpoint extend_each {A B : Type} (f : A -> result (list B)) (l : list A)
    : result (list B) :=
  match l with
  | [] => Ok []
  | x :: r =>
      do ys <- f x;
      do zs <- extend_each f r;
      Ok (ys ++ zs)
  end.

(** [[f(x) for x in l]] *)
Fixpoint map_each {A B : Type} (f : A -> result B) (l : list A) : result (list B) :=
  match l with
  | [] => Ok []
  | x :: r =>
      do y <- f x;
      do ys <- map_each f r;
      Ok (y :: ys)
  end.

(** The same with [enumerate]: [i] counts from [start]. *)
Fixpoint extend_each_i {A B : Type} (f : nat -> A -> result (list B))
    (start : nat) (l : list A) : result (list B) :=
  match l with
  | [] => Ok []
  | x :: r =>
      do ys <- f start x;
      do zs <- extend_each_i f (S start) r;
      Ok (ys ++ zs)
  end.

(** ** Operations of the interpreter on JSON values *)

(** Truth value, as [not v] and [if v] test it. *)
Definition truthy (v : json) : bool :=
  match v with
  | JNull => false
  | JBool b => b
  | JInt z => negb (Z.eqb z 0)
  | JFloat nz => nz
  | JStr s => match s with [] => false | _ => true end
  | JArr l => match l with [] => false | _ => true end
  | JObj kvs => match kvs with [] => false | _ => true end
  end.

(** The items of a [dict] are kept in insertion order, one per key. *)
Fixpoint lookup_key (k : pystr) (kvs : list (pystr * json)) : option json :=
  match kvs with
  | [] => None
  | (k', v) :: r => if streq k' k then Some v else lookup_key k r
  end.

(** [d.get(k, default)]; only a [dict] has the method. *)
Definition get (d : json) (k : pystr) (default : json) : result json :=
  match d with
  | JObj kvs => Ok (match lookup_key k kvs with Some v => v | None => default end)
  | _ => Raise AttributeError
  end.

(** The receiver of a [str] method such as [strip] or [lower]. *)
Definition as_str (v : json) : result pystr :=
  match v with
  | JStr s => Ok s
  | _ => Raise AttributeError
  end.

(** [for x in v]: the elements of a list, the code points of a text, the
    keys of a dict. *)
Definition iter (v : json) : result (list json) :=
  match v with
  | JArr l => Ok l
  | JStr s => Ok (map (fun c => JStr [c]) s)
  | JObj kvs => Ok (map (fun kv => JStr (fst kv)) kvs)
  | _ => Raise TypeError
  end.

(** [len(v)]. *)
Definition len (v : json) : result nat :=
  match v with
  | JArr l => Ok (length l)
  | JStr s => Ok (length s)
  | JObj kvs => Ok (length kvs)
  | _ => Raise TypeError
  end.

End Py.
Export Py.

(** ** Regular expressions *)

Module Re.

(** The pattern constructs the scripts use.  Every repetition in them is over
    a class of single code points. *)
Inductive item :=
| Lit (c : pychar)                  (* a literal code point *)
| Cls (p : pychar -> bool)          (* one code point of a class *)
| StarG (p : pychar -> bool)        (* p*   greedy *)
| StarL (p : pychar -> bool)        (* p*?  lazy *)
| LookBehind (p : pychar -> bool)   (* (?<=[...]) for a class *)
| WordB (w : pychar -> bool)        (* \b, for the word class w *)
| Bol                               (* ^ without MULTILINE *)
| GOpen                             (* the opening parenthesis of group 1 *)
| GClose.                           (* its closing parenthesis *)

Definition pattern := list item.

(** p+ is p p*. *)
Definition plusG (p : pychar -> bool) : pattern := [Cls p; StarG p].
Definition lits (s : string) : pattern := map Lit (lit s).
Definition any (_ : pychar) : bool := true.
Definition eqc (c : pychar) (x : pychar) : bool := x =? c.
Definition neqc (c : pychar) (x : pychar) : bool := negb (x =? c).
Definition oneof (l : list pychar) (x : pychar) : bool := existsb (fun c => x =? c) l.

(** A match: its length and the bounds of group 1, all counted from the start
    of the match. *)
Record found := Found { m_len : nat; g_start : nat; g_end : nat }.

Section Matcher.
Context {R : Type}.

(** Greedy repetition: take one more code point when possible, and fall back
    to the continuation when the longer attempt fails. *)
Fixpoint star_greedy (p : pychar -> bool)
    (k : option pychar -> pystr -> nat -> option R)
    (prev : option pychar) (s : pystr) (pos : nat) : option R :=
  match s with
  | x :: t =>
      if p x then
        match star_greedy p k (Some x) t (S pos) with
        | Some m => Some m
        | None => k prev s pos
        end
      else k prev s pos
  | [] => k prev s pos
  end.

(** Lazy repetition: try the continuation first, and take one more code point
    only when it fails. *)
Fixpoint star_lazy (p : pychar -> bool)
    (k : option pychar -> pystr -> nat -> option R)
    (prev : option pychar) (s : pystr) (pos : nat) : option R :=
  match k prev s pos with
  | Some m => Some m
  | None =>
      match s with
      | x :: t => if p x then star_lazy p k (Some x) t (S pos) else None
      | [] => None
      end
  end.

End Matcher.

Definition holds_at (w : pychar -> bool) (c : option pychar) : bool :=
  match c with Some x => w x | None => false end.

(** Match the pattern at the current position.  [prev] is the code point just
    before it ([None] at the start of the text), [pos] the number of code
    points of the match so far. *)
Fixpoint match_here (items : pattern) (prev : option pychar) (s : pystr)
    (pos gs ge : nat) : option found :=
  match items with
  | [] => Some (Found pos gs ge)
  | it :: r =>
      match it with
      | Lit c =>
          match s with
          | x :: t => if x =? c then match_here r (Some x) t (S pos) gs ge else None
          | [] => None
          end
      | Cls p =>
          match s with
          | x :: t => if p x then match_here r (Some x) t (S pos) gs ge else None
          | [] => None
          end
      | StarG p =>
          star_greedy p (fun prev' s' pos' => match_here r prev' s' pos' gs ge) prev s pos
      | StarL p =>
          star_lazy p (fun prev' s' pos' => match_here r prev' s' pos' gs ge) prev s pos
      | LookBehind p =>
          if holds_at p prev then match_here r prev s pos gs ge else None
      | WordB w =>
          if xorb (holds_at w prev) (holds_at w (head s))
          then match_here r prev s pos gs ge else None
      | Bol =>
          match prev with
          | None => match_here r prev s pos gs ge
          | Some _ => None
          end
      | GOpen => match_here r prev s pos pos ge
      | GClose => match_here r prev s pos gs pos
      end
  end.

Definition match_at (items : pattern) (prev : option pychar) (s : pystr) : option found :=
  match_here items prev s 0%nat 0%nat 0%nat.

(** [re.search]: the first position, from the left, where the pattern matches.
    The result is the offset of the match and the match. *)
Fixpoint search_from (items : pattern) (prev : option pychar) (s : pystr)
    (off : nat) : option (nat * found) :=
  match match_at items prev s with
  | Some m => Some (off, m)
  | None =>
      match s with
      | [] => None
      | x :: t => search_from items (Some x) t (S off)
      end
  end.

Definition search (items : pattern) (s : pystr) : option (nat * found) :=
  search_from items None s 0%nat.

(** The text of group 1 of a match found at offset [off]. *)
Definition group1 (s : pystr) (off : nat) (m : found) : pystr :=
  take (g_end m - g_start m)%nat (drop (off + g_start m)%nat s).

(** [re.sub]: replace the matches from left to right, without overlap.
    [skip] counts the code points of the current match still to pass.  A
    match of length zero is replaced and the scan moves one code point on. *)
Fixpoint sub_go (items : pattern) (repl : pystr -> pystr)
    (prev : option pychar) (s : pystr) (skip : nat) : pystr :=
  match s with
  | [] =>
      match skip with
      | O => match match_at items prev [] with
             | Some m => repl []
             | None => []
             end
      | S _ => []
      end
  | x :: t =>
      match skip with
      | S k => sub_go items repl (Some x) t k
      | O =>
          match match_at items prev s with
          | Some m =>
              repl (group1 s 0 m) ++
              match m_len m with
              | O => x :: sub_go items repl (Some x) t 0
              | S k => sub_go items repl (Some x) t k
              end
          | None => x :: sub_go items repl (Some x) t 0
          end
      end
  end.

(** [re.sub(pattern, repl, s)], where [repl] builds the replacement from the
    text of group 1. *)
Definition sub (items : pattern) (repl : pystr -> pystr) (s : pystr) : pystr :=
  sub_go items repl None s 0.

(** [re.finditer]: the matched texts, from left to right, without overlap. *)
Fixpoint finditer_go (items : pattern) (prev : option pychar) (s : pystr)
    (skip : nat) : list pystr :=
  match s with
  | [] =>
      match skip with
      | O => match match_at items prev [] with
             | Some m => [[]]
             | None => []
             end
      | S _ => []
      end
  | x :: t =>
      match skip with
      | S k => finditer_go items (Some x) t k
      | O =>
          match match_at items prev s with
          | Some m =>
              take (m_len m) s ::
              finditer_go items (Some x) t (pred (m_len m))
          | None => finditer_go items (Some x) t 0
          end
      end
  end.

Definition finditer (items : pattern) (s : pystr) : list pystr :=
  finditer_go items None s 0.

End Re.
Export Re.

(** ** english-resources-validate.py *)

(** [r'const grammarData\s*=\s*(\{.*?\n\});'] with [re.DOTALL]. *)
Definition grammar_data_re : pattern :=
  lits "const grammarData" ++ [StarG isspace; Lit 61; StarG isspace;
    GOpen; Lit 123; StarL any; Lit 10; Lit 125; GClose; Lit 59].

(** [extract_grammar_data_text]: the text of group 1, or [None]. *)
Definition extract_grammar_data_text (html_content : pystr) : option pystr :=
  match search grammar_data_re html_content with
  | Some (off, m) => Some (group1 html_content off m)
  | None => None
  end.

(** The four patterns of [js_to_json]. *)

(** [r'//[^\n]*'] *)
Definition line_comment_re : pattern := lits "//" ++ [StarG (neqc 10)].

(** [r'/\*.*?\*/'] with [re.DOTALL]. *)
Definition block_comment_re : pattern := lits "/*" ++ [StarL any; Lit 42; Lit 47].

Section Validator.
Context {rt : Runtime} {order : SetOrder} {out : Output}.

(** [r'(?<=[{,\n])\s*(\w+)\s*:'] *)
Definition bare_key_re : pattern :=
  [LookBehind (oneof [123; 44; 10]); StarG isspace; GOpen] ++ plusG isword
  ++ [GClose; StarG isspace; Lit 58].

(** [r',\s*([}\]])'] *)
Definition trailing_comma_re : pattern :=
  [Lit 44; StarG isspace; GOpen; Cls (oneof [125; 93]); GClose].

(** The replacement [''], the empty text. *)
Definition drop_match (_ : pystr) : pystr := [].

(** The replacement [r' "\1":']. *)
Definition quote_key (g : pystr) : pystr := [32; 34] ++ g ++ [34; 58].

(** The replacement [r'\1']. *)
Definition keep_group (g : pystr) : pystr := g.

Definition js_to_json (js_text : pystr) : pystr :=
  let text := js_text in
  let text := sub line_comment_re drop_match text in
  let text := sub block_comment_re drop_match text in
  let text := sub bare_key_re quote_key text in
  let text := sub trailing_comma_re keep_group text in
  text.

(** [parse_grammar_data]: the data, or the error message. *)
Definition parse_grammar_data (html_content : pystr) : result (json + pystr) :=
  match extract_grammar_data_text html_content with
  | None => Ok (inr (lit "Could not find grammarData block"))
  | Some raw =>
      do parsed <- json_loads (js_to_json raw);
      match parsed with
      | inl data => Ok (inl data)
      | inr e => Ok (inr (lit "JSON parse error: " ++ e))
      end
  end.

(** [r'^[a-d]\.\s*'] *)
Definition choice_prefix_re : pattern :=
  [Bol; Cls (fun c => (97 <=? c) && (c <=? 100)); Lit 46; StarG isspace].

Definition strip_choice_prefix (s : pystr) : pystr := sub choice_prefix_re drop_match s.

(** [is_sentence_answer], on a [str]. *)
Definition is_sentence_answer (answer_str : pystr) : bool :=
  let clean := strip_choice_prefix (strip answer_str) in
  let word_count := length (split_ws clean) in
  bool_decide (4 <= word_count)%nat.

Definition common_word_list : list pystr :=
  map lit
    ["a"; "an"; "the"; "is"; "are"; "was"; "were"; "be"; "been"; "being";
     "have"; "has"; "had"; "do"; "does"; "did"; "will"; "would"; "can";
     "could"; "should"; "may"; "might"; "shall"; "must"; "to"; "of"; "in";
     "on"; "at"; "by"; "for"; "with"; "from"; "as"; "it"; "its"; "that";
     "this"; "not"; "no"; "so"; "if"; "or"; "and"; "but"; "i"; "he"; "she";
     "we"; "they"; "you"; "me"; "him"; "her"; "us"; "them"; "my"; "his";
     "our"; "your"; "their"]%string.

Definition COMMON_WORDS : gset pystr := list_to_set common_word_list.

Definition is_common (w : pystr) : bool := bool_decide (w ∈ COMMON_WORDS).

(** The arrow of a correction, U+2192. *)
Definition arrow : pychar := 8594.

Definition nonempty (s : pystr) : bool := match s with [] => false | _ => true end.

(** [[w.strip().lower() for w in s.split(',') if w.strip()]] *)
Definition comma_parts (s : pystr) : list pystr :=
  map (fun w => lower (strip w)) (filter (fun w => nonempty (strip w) = true) (split_on 44 s)).

(** [extract_answer_words], on a [str]. *)
Definition extract_answer_words (answer_str : pystr) : list pystr :=
  let answer := strip answer_str in
  let answer := strip_choice_prefix answer in
  let answer :=
    if has_char arrow answer then strip (List.last (split_on arrow answer) []) else answer in
  if is_sentence_answer answer then [strip (lower answer)]
  else
    let words := comma_parts answer in
    let full := strip (lower answer) in
    if nonempty full && negb (mem full words) then words ++ [full] else words.

(** A finding. *)
Inductive kind :=
| vocab_leak | hint_leak | missing_field | no_pedagogy | hint_count
| file_size | parse_error | no_sections | categoryMap_mismatch.

Inductive severity := HIGH | MEDIUM | LOW.

Record finding := Finding {
  f_type : kind;
  f_severity : severity;
  f_question : json;
  f_section : json;
  f_detail : pystr
}.

#[global] Instance kind_eq_dec : EqDecision kind.
Proof. solve_decision. Defined.
#[global] Instance severity_eq_dec : EqDecision severity.
Proof. solve_decision. Defined.

Definition key (s : string) : pystr := lit s.
Definition default_num : json := JStr (lit "?").
Definition dash : json := JStr (lit "-").

(** [re.search(r'\b' + re.escape(w) + r'\b', s)]: [w] as a whole word of [s]. *)
Definition whole_word_re (w : pystr) : pattern :=
  [WordB isword] ++ map Lit w ++ [WordB isword].

Definition has_whole_word (w s : pystr) : bool :=
  match search (whole_word_re w) s with Some _ => true | None => false end.

(** [re.sub(r'[^\w\s]', '', s)] *)
Definition punctuation_re : pattern := [Cls (fun c => negb (isword c || isspace c))].

Definition function_words : gset pystr :=
  list_to_set (map lit
    ["so"; "not"; "no"; "in"; "by"; "as"; "of";
     "such"; "both"; "either"; "neither"; "nor";
     "whether"; "until"; "unless"; "once"; "that"]%string).

(** The body of [for aw in answer_words] in [check_vocab_leaks]. *)
Definition vocab_word_issues (sentence_answer : bool) (num section_title : json)
    (entry0 vocab_word vocab_word_plain aw : pystr) : list finding :=
  if negb (nonempty aw) then []
  else if sentence_answer then
    if bool_decide (length (split_ws vocab_word_plain) < 2)%nat then []
    else
      let phrase_words : gset pystr := list_to_set (split_ws vocab_word_plain) in
      let has_function_word := bool_decide (phrase_words ∩ function_words ≠ ∅) in
      if has_function_word && contains vocab_word_plain aw then
        [Finding vocab_leak HIGH num section_title
           (lit "Vocab '" ++ entry0 ++ lit "' teaches grammar pattern from answer")]
      else []
  else
    if is_common aw then []
    else if has_whole_word aw vocab_word then
      [Finding vocab_leak HIGH num section_title
         (lit "Vocab '" ++ entry0 ++ lit "' contains answer '" ++ aw ++ lit "'")]
    else if has_whole_word vocab_word_plain aw then
      [Finding vocab_leak HIGH num section_title
         (lit "Vocab '" ++ entry0 ++ lit "' matches answer '" ++ aw ++ lit "'")]
    else [].

(** The body of [for entry in vocab] in [check_vocab_leaks]. *)
Definition vocab_entry_issues (sentence_answer : bool) (answer_words : list pystr)
    (num section_title : json) (entry : json) : result (list finding) :=
  match entry with
  | JArr (e0 :: _ :: _) =>
      do entry0 <- as_str e0;
      let vocab_word := lower entry0 in
      let vocab_word_plain := strip (sub punctuation_re drop_match vocab_word) in
      if is_common vocab_word_plain then Ok []
      else
        Ok (concat (map (vocab_word_issues sentence_answer num section_title
                           entry0 vocab_word vocab_word_plain) answer_words))
  | _ => Ok []
  end.

Definition check_vocab_leaks (question section_title : json) : result (list finding) :=
  do answer <- get question (key "answer") (JStr []);
  do vocab <- get question (key "vocab") (JArr []);
  do question_text <- get question (key "text") (JStr []);
  do num <- get question (key "num") default_num;
  if negb (truthy answer) || negb (truthy vocab) then Ok []
  else
    do answer_str <- as_str answer;
    let sentence_answer := is_sentence_answer answer_str in
    let answer_words := extract_answer_words answer_str in
    do entries <- iter vocab;
    extend_each (vocab_entry_issues sentence_answer answer_words num section_title) entries.

(** The detail of a hint finding: the number of the hint, the answer word,
    and the first 60 code points of the hint between double quotes. *)
Definition hint_detail (i : nat) (verb aw hint : pystr) : pystr :=
  lit "Hint " ++ str_of_N (N.of_nat (i + 1)) ++ lit " " ++ verb ++ lit " answer '"
  ++ aw ++ lit "': " ++ [34] ++ take 60 hint ++ lit "..." ++ [34].

(** The body of [for aw in answer_parts] in [check_hint_leaks]. *)
Definition hint_word_issues (num section_title : json) (i : nat)
    (hint hint_lower aw : pystr) : list finding :=
  if negb (nonempty aw) || is_common aw then []
  else if has_char 32 aw then
    if contains aw hint_lower then
      [Finding hint_leak HIGH num section_title (hint_detail i (lit "states") aw hint)]
    else []
  else
    if has_whole_word aw hint_lower then
      [Finding hint_leak HIGH num section_title (hint_detail i (lit "contains") aw hint)]
    else [].

(** The body of [for i, hint in enumerate(hints)]. *)
Definition hint_issues (answer_parts : list pystr) (num section_title : json)
    (i : nat) (hint : json) : result (list finding) :=
  do hint_str <- as_str hint;
  let hint_lower := lower hint_str in
  Ok (concat (map (hint_word_issues num section_title i hint_str hint_lower) answer_parts)).

Definition check_hint_leaks (question section_title : json) : result (list finding) :=
  do answer <- get question (key "answer") (JStr []);
  do hints <- get question (key "hint") (JArr []);
  do num <- get question (key "num") default_num;
  if negb (truthy answer) || negb (truthy hints) then Ok []
  else
    do answer_str <- as_str answer;
    let clean_answer := strip_choice_prefix (strip answer_str) in
    if is_sentence_answer answer_str then Ok []
    else
      let answer_parts := comma_parts clean_answer in
      let full_answer := strip (lower clean_answer) in
      let answer_parts :=
        if negb (mem full_answer answer_parts) then answer_parts ++ [full_answer]
        else answer_parts in
      do hint_list <- iter hints;
      extend_each_i (hint_issues answer_parts num section_title) 0 hint_list.

(** [not value or (isinstance(value, str) and not value.strip())] *)
Definition blank (value : json) : bool :=
  negb (truthy value)
  || match value with JStr s => negb (nonempty (strip s)) | _ => false end.

Definition missing_field_issue (question num section_title : json) (field : string)
    : result (list finding) :=
  do value <- get question (key field) JNull;
  if blank value then
    Ok [Finding missing_field MEDIUM num section_title
          (lit "Missing required field: " ++ lit field)]
  else Ok [].

(** The section keywords under which a translation may be left out. *)
Definition translation_optional_keywords : list pystr :=
  [[20006; 12409; 12363; 12360]; [33521; 20316; 25991]; [31354; 25152; 35036; 20805]].

Definition demote (issue : finding) : finding :=
  if bool_decide (f_type issue = missing_field) && contains (lit "translation") (f_detail issue)
  then Finding (f_type issue) LOW (f_question issue) (f_section issue) (f_detail issue)
  else issue.

Definition check_required_fields (question section_title : json) : result (list finding) :=
  do num <- get question (key "num") default_num;
  do issues <- extend_each (missing_field_issue question num section_title)
                 ["text"; "answer"; "translation"]%string;
  do vocab <- get question (key "vocab") JNull;
  do hint <- get question (key "hint") JNull;
  let issues :=
    if negb (truthy vocab) && negb (truthy hint) then
      issues ++ [Finding no_pedagogy LOW num section_title
                   (lit "No vocab AND no hints (student gets no help)")]
    else issues in
  do title <- as_str section_title;
  let section_lower := lower title in
  let translation_optional :=
    existsb (fun kw => contains kw section_lower) translation_optional_keywords in
  if translation_optional then Ok (map demote issues) else Ok issues.

Definition check_hint_count (question section_title : json) : result (list finding) :=
  do hints <- get question (key "hint") (JArr []);
  do num <- get question (key "num") default_num;
  if truthy hints then
    do n <- len hints;
    if negb (n =? 3)%nat then
      Ok [Finding hint_count LOW num section_title
            (lit "Expected 3 hints, found " ++ str_of_N (N.of_nat n))]
    else Ok []
  else Ok [].

(** [r'categoryMap:\s*\{([^}]+)\}'] *)
Definition category_map_re : pattern :=
  lits "categoryMap:" ++ [StarG isspace; Lit 123; GOpen] ++ plusG (neqc 125)
  ++ [GClose; Lit 125].

(** [r'\d+'] *)
Definition digits_re : pattern := plusG isdigit.

(** [int(s)] for a run of decimal digits; a run longer than the limit of
    the interpreter is refused. *)
Definition int_of_digits (s : pystr) : result N :=
  if negb (int_max_str_digits =? 0)%nat && (int_max_str_digits <? length s)%nat
  then Raise ValueError
  else Ok (fold_left (fun acc c => 10 * acc + default 0 (digit_value c)) s 0).

(** [sorted(s)] for a set of integers: the set is iterated, in the order of
    the run, and the elements are put in increasing order. *)
Definition sorted (s : gset N) : list N := merge_sort N.le (set_iter s).

(** [set(range(n))] *)
Definition range_set (n : nat) : gset N := list_to_set (map N.of_nat (seq 0 n)).

(** The indices the text of the mapping names: every run of digits in it. *)
Definition referenced_indices (cat_text : pystr) : result (gset N) :=
  do indices <- map_each int_of_digits (finditer digits_re cat_text);
  Ok (list_to_set indices).

Definition mismatch_detail (missing extra : gset N) : pystr :=
  let detail := [] in
  let detail :=
    if bool_decide (missing ≠ ∅)
    then detail ++ lit "Sections not in categoryMap: " ++ repr_list (sorted missing) ++ lit ". "
    else detail in
  let detail :=
    if bool_decide (extra ≠ ∅)
    then detail ++ lit "categoryMap references non-existent sections: "
         ++ repr_list (sorted extra) ++ lit "."
    else detail in
  strip detail.

(** The categoryMap consistency check of [validate_file]. *)
Definition category_map_issues (content : pystr) (sections : json) : result (list finding) :=
  match search category_map_re content with
  | Some (off, m) =>
      let cat_text := group1 content off m in
      do referenced <- referenced_indices cat_text;
      do n <- len sections;
      let expected := range_set n in
      if bool_decide (referenced ≠ expected) then
        let missing := expected ∖ referenced in
        let extra := referenced ∖ expected in
        Ok [Finding categoryMap_mismatch HIGH dash dash (mismatch_detail missing extra)]
      else Ok []
  | None => Ok []
  end.

(** The four checks of one question, in the order of [validate_file]. *)
Definition question_issues (title q : json) : result (list finding) :=
  do a <- check_vocab_leaks q title;
  do b <- check_hint_leaks q title;
  do c <- check_required_fields q title;
  do d <- check_hint_count q title;
  Ok (a ++ b ++ c ++ d).

(** One turn of [for section in sections], adding to the number of questions
    and to the findings. *)
Definition section_issues (acc : nat * list finding) (section : json)
    : result (nat * list finding) :=
  do title <- get section (key "title") (JStr (lit "Unknown section"));
  do questions <- get section (key "questions") (JArr []);
  do n <- len questions;
  do qs <- iter questions;
  do issues <- extend_each (question_issues title) qs;
  Ok ((fst acc + n)%nat, snd acc ++ issues).

Fixpoint sections_issues (acc : nat * list finding) (sections : list json)
    : result (nat * list finding) :=
  match sections with
  | [] => Ok acc
  | sec :: r =>
      do acc' <- section_issues acc sec;
      sections_issues acc' r
  end.

(** ** Files *)

(** A file as the script sees it: its size in bytes and its text, [None] when
    the bytes are not UTF-8. *)
Record file := File { file_size_bytes : N; file_text : option pystr }.

Record filesystem := FS {
  fs_file : pystr -> option file;
  fs_isdir : pystr -> bool;
  fs_listdir : pystr -> list pystr
}.

Definition isfile (fs : filesystem) (p : pystr) : bool :=
  match fs_file fs p with Some _ => true | None => false end.

Definition getsize (fs : filesystem) (p : pystr) : result N :=
  match fs_file fs p with
  | Some f => Ok (file_size_bytes f)
  | None => Raise OSError
  end.

Definition read_text (fs : filesystem) (p : pystr) : result pystr :=
  match fs_file fs p with
  | Some f => match file_text f with Some t => Ok t | None => Raise UnicodeDecodeError end
  | None => Raise OSError
  end.

(** [os.path.basename] *)
Definition basename (p : pystr) : pystr := List.last (split_on 47 p) [].

(** [os.path.join] of a directory and a name. *)
Definition path_join (a b : pystr) : pystr :=
  if starts_with [47] b then b
  else match List.last (map Some a) None with
       | None | Some 47 => a ++ b
       | _ => a ++ [47] ++ b
       end.

Definition MAX_HTML_SIZE : N := 200 * 1024.

Record meta := Meta { meta_sections : nat; meta_questions : nat; meta_size_kb : N }.

Definition report : Type := pystr * list finding * option meta.
Definition report_issues (r : report) : list finding := snd (fst r).
Definition report_meta (r : report) : option meta := snd r.

Definition validate_file (fs : filesystem) (filepath : pystr) : result report :=
  let filename := basename filepath in
  do size <- getsize fs filepath;
  let issues :=
    if MAX_HTML_SIZE <? size then
      [Finding file_size MEDIUM dash dash
         (lit "File is " ++ str_of_N (size / 1024) ++ lit "KB (limit: "
          ++ str_of_N (MAX_HTML_SIZE / 1024) ++ lit "KB)")]
    else [] in
  do content <- read_text fs filepath;
  do parsed <- parse_grammar_data content;
  match parsed with
  | inr error =>
      Ok (filename, issues ++ [Finding parse_error HIGH dash dash error], None)
  | inl data =>
      do sections <- get data (key "sections") (JArr []);
      if negb (truthy sections) then
        Ok (filename,
            issues ++ [Finding no_sections HIGH dash dash (lit "grammarData has no sections")],
            None)
      else
        do cat <- category_map_issues content sections;
        do section_list <- iter sections;
        do acc <- sections_issues (0%nat, issues ++ cat) section_list;
        do n <- len sections;
        Ok (filename, snd acc, Some (Meta n (fst acc) (size / 1024)))
  end.

(** ** The report *)

(** The ANSI colours. *)
Definition RED : pystr := [27] ++ lit "[91m".
Definition YELLOW : pystr := [27] ++ lit "[93m".
Definition GREEN : pystr := [27] ++ lit "[92m".
Definition CYAN : pystr := [27] ++ lit "[96m".
Definition BOLD : pystr := [27] ++ lit "[1m".
Definition RESET : pystr := [27] ++ lit "[0m".

Definition kind_name (k : kind) : pystr :=
  match k with
  | vocab_leak => lit "vocab_leak"
  | hint_leak => lit "hint_leak"
  | missing_field => lit "missing_field"
  | no_pedagogy => lit "no_pedagogy"
  | hint_count => lit "hint_count"
  | file_size => lit "file_size"
  | parse_error => lit "parse_error"
  | no_sections => lit "no_sections"
  | categoryMap_mismatch => lit "categoryMap_mismatch"
  end.

(** [str(z)] for an integer; a number with more digits than the limit of the
    interpreter is refused. *)
Definition str_of_int (z : Z) : result pystr :=
  let digits := str_of_N (Z.abs_N z) in
  if negb (int_max_str_digits =? 0)%nat && (int_max_str_digits <? length digits)%nat
  then Raise ValueError
  else Ok (if (z <? 0)%Z then [45] ++ digits else digits).

(** A value inside an f-string. *)
Definition format_value (v : json) : result pystr :=
  match v with
  | JStr s => Ok s
  | JInt z => str_of_int z
  | JBool true => Ok (lit "True")
  | JBool false => Ok (lit "False")
  | JNull => Ok (lit "None")
  | _ => Ok (str_ext v)
  end.

(** [v != '-'] *)
Definition not_dash (v : json) : bool :=
  match v with
  | JStr s => negb (streq s (lit "-"))
  | _ => true
  end.

Definition with_severity (s : severity) (issues : list finding) : list finding :=
  filter (fun i => f_severity i = s) issues.

(** [sorted(issues, key=...)]: the sort is stable, so the findings come by
    severity and, within one severity, in the order of the list. *)
Definition by_severity (issues : list finding) : list finding :=
  with_severity HIGH issues ++ with_severity MEDIUM issues ++ with_severity LOW issues.

Definition color (s : severity) : pystr :=
  match s with HIGH => RED | MEDIUM => YELLOW | LOW => RESET end.

(** The red, the yellow and the white circle. *)
Definition icon (s : severity) : pystr :=
  match s with HIGH => [128308] | MEDIUM => [128993] | LOW => [9898] end.

(** The two lines of one finding. *)
Definition print_issue (issue : finding) : result unit :=
  do loc <- (if not_dash (f_question issue) then
               do section <- format_value (f_section issue);
               do question <- format_value (f_question issue);
               Ok (section ++ [32] ++ question)
             else format_value (f_section issue));
  do _ <- print (lit "  " ++ icon (f_severity issue) ++ [32] ++ color (f_severity issue)
                 ++ lit "[" ++ kind_name (f_type issue) ++ lit "]" ++ RESET ++ [32] ++ loc);
  print (lit "     " ++ f_detail issue).

Definition count_text (n : nat) : pystr := str_of_N (N.of_nat n).

(** The line of the metadata, when the report has them. *)
Definition print_meta (m : option meta) : result unit :=
  match m with
  | Some mt =>
      print (lit "  " ++ count_text (meta_sections mt) ++ lit " sections, "
             ++ count_text (meta_questions mt) ++ lit " questions, "
             ++ str_of_N (meta_size_kb mt) ++ lit "KB")
  | None => Ok tt
  end.

(** [print_report]: [True] for a report without findings. *)
Definition print_report (r : report) : result bool :=
  let filename := fst (fst r) in
  let issues := report_issues r in
  let high := with_severity HIGH issues in
  let medium := with_severity MEDIUM issues in
  let low := with_severity LOW issues in
  match issues with
  | [] =>
      do _ <- print ([10] ++ GREEN ++ BOLD ++ [10003; 32] ++ filename ++ RESET);
      do _ <- print_meta (report_meta r);
      do _ <- print (lit "  " ++ GREEN ++ lit "All checks passed" ++ RESET);
      Ok true
  | _ :: _ =>
      do _ <- print ([10] ++ (match high with [] => YELLOW | _ => RED end) ++ BOLD
                     ++ [10007; 32] ++ filename ++ RESET);
      do _ <- print_meta (report_meta r);
      do _ <- print (lit "  " ++ RED ++ count_text (length high) ++ lit " HIGH" ++ RESET
                     ++ lit "  " ++ YELLOW ++ count_text (length medium) ++ lit " MEDIUM"
                     ++ RESET ++ lit "  " ++ count_text (length low) ++ lit " LOW");
      do _ <- for_each print_issue (by_severity issues);
      Ok false
  end.

(** ** The run *)

Inductive outcome :=
| Exit (code : Z)         (* sys.exit(code) *)
| Uncaught (e : exn).     (* a traceback; the interpreter exits with status 1 *)

Definition exit_status (o : outcome) : Z :=
  match o with Exit c => c | Uncaught _ => 1%Z end.

Definition REPO_DIR : pystr := lit "/Users/slimtetto/Projects/English-Resources".

Definition DUAL_SCOPE_DIR : pystr :=
  path_join REPO_DIR
    [39640; 26657; 65298; 24180; 47; 35542; 29702; 12539; 34920; 29694; 73; 73; 47;
     68; 117; 97; 108; 32; 83; 99; 111; 112; 101].

(** Order of [str] values: by code points, a proper prefix first. *)
Fixpoint lex_leb (a b : pystr) : bool :=
  match a, b with
  | [], _ => true
  | _ :: _, [] => false
  | x :: a', y :: b' => if x <? y then true else if y <? x then false else lex_leb a' b'
  end.

Definition str_le (a b : pystr) : Prop := lex_leb a b = true.

#[global] Instance str_le_dec : RelDecision str_le.
Proof. intros a b. unfold str_le. apply _. Defined.

Definition ends_with (sfx s : pystr) : bool := starts_with (reverse sfx) (reverse s).

(** The explicit arguments, each of which must be a file; at the first that
    is not, a line is printed and [None] stands for [sys.exit(1)]. *)
Fixpoint files_of_args (fs : filesystem) (args : list pystr)
    : result (option (list pystr)) :=
  match args with
  | [] => Ok (Some [])
  | arg :: r =>
      if isfile fs arg then
        do rest <- files_of_args fs r;
        Ok (match rest with Some files => Some (arg :: files) | None => None end)
      else
        do _ <- print (lit "File not found: " ++ arg);
        Ok None
  end.

Definition lesson_files (fs : filesystem) : list pystr :=
  map (path_join DUAL_SCOPE_DIR)
    (filter (fun f => starts_with (lit "Lesson") f && ends_with (lit ".html") f = true)
       (merge_sort str_le (fs_listdir fs DUAL_SCOPE_DIR))).

(** The files of the run; [None] stands for [sys.exit(1)]. *)
Definition select_files (fs : filesystem) (argv : list pystr)
    : result (option (list pystr)) :=
  if bool_decide (1 < length argv)%nat then files_of_args fs (drop 1 argv)
  else if negb (fs_isdir fs DUAL_SCOPE_DIR) then
    do _ <- print (lit "Dual Scope directory not found: " ++ DUAL_SCOPE_DIR);
    Ok None
  else Ok (Some (lesson_files fs)).

(** [all_passed] and [total_issues]. *)
Record tally := Tally { all_passed : bool; n_high : nat; n_medium : nat; n_low : nat }.

Definition add_report (t : tally) (passed : bool) (issues : list finding) : tally :=
  Tally (if negb passed then false else all_passed t)
    (n_high t + length (with_severity HIGH issues))
    (n_medium t + length (with_severity MEDIUM issues))
    (n_low t + length (with_severity LOW issues)).

(** The loop of [main] over the files. *)
Fixpoint validate_all (fs : filesystem) (files : list pystr) (t : tally) : result tally :=
  match files with
  | [] => Ok t
  | filepath :: r =>
      do res <- validate_file fs filepath;
      do passed <- print_report res;
      validate_all fs r (add_report t passed (report_issues res))
  end.

Definition print_summary (t : tally) : result unit :=
  do _ <- print ([10] ++ replicate 50 9472);
  if all_passed t then
    print (GREEN ++ BOLD ++ lit "All files passed validation " ++ [10003] ++ RESET)
  else
    print (BOLD ++ lit "Total issues: " ++ RED ++ count_text (n_high t) ++ lit " HIGH" ++ RESET
           ++ lit "  " ++ YELLOW ++ count_text (n_medium t) ++ lit " MEDIUM" ++ RESET
           ++ lit "  " ++ count_text (n_low t) ++ lit " LOW" ++ RESET).

Definition print_header (files : list pystr) : result unit :=
  do _ <- print (BOLD ++ CYAN ++ lit "Dual Scope Content Validator" ++ RESET);
  print (lit "Checking " ++ count_text (length files) ++ lit " file(s)..." ++ [10]).

(** [main] from its first line of output to the argument of [sys.exit]. *)
Definition main_loop (fs : filesystem) (files : list pystr) : result Z :=
  do _ <- print_header files;
  do t <- validate_all fs files (Tally true 0 0 0);
  do _ <- print_summary t;
  Ok (if all_passed t then 0 else 1)%Z.

(** [main]; [argv] is [sys.argv]. *)
Definition main (fs : filesystem) (argv : list pystr) : outcome :=
  let code :=
    do selected <- select_files fs argv;
    match selected with
    | None => Ok 1%Z
    | Some [] =>
        do _ <- print (lit "No lesson files found to validate.");
        Ok 1%Z
    | Some files => main_loop fs files
    end in
  match code with
  | Ok c => Exit c
  | Raise e => Uncaught e
  end.

End Validator.

(** ** upload-answers.py: the brace scanner of [extract_grammar_data] *)

Module Upload.

(** [r'const grammarData\s*=\s*\{'] *)
Definition grammar_data_open_re : pattern :=
  lits "const grammarData" ++ [StarG isspace; Lit 61; StarG isspace; Lit 123].

Inductive mode :=
| Code                     (* outside any string *)
| InString (quote : pychar)  (* inside a string or template literal *)
| Escaped (quote : pychar).  (* just after a backslash inside one *)

(** The loop that counts braces: the code points of [html_content[start:i+1]]
    when the scan is at [s] with the given depth. *)
Fixpoint scan (m : mode) (depth : Z) (s : pystr) : pystr :=
  match s with
  | [] => []
  | ch :: t =>
      match m with
      | Code =>
          if ch =? 123 then ch :: scan Code (depth + 1) t
          else if ch =? 125 then
            if (depth - 1 =? 0)%Z then [ch] else ch :: scan Code (depth - 1) t
          else if (ch =? 34) || (ch =? 39) || (ch =? 96) then ch :: scan (InString ch) depth t
          else ch :: scan Code depth t
      | InString q =>
          if ch =? q then ch :: scan Code depth t
          else if ch =? 92 then ch :: scan (Escaped q) depth t
          else ch :: scan (InString q) depth t
      | Escaped q => ch :: scan (InString q) depth t
      end
  end.

(** The span [js_obj] of [extract_grammar_data], before its conversion. *)
Definition extract_grammar_data_span (html_content : pystr) : option pystr :=
  match search grammar_data_open_re html_content with
  | None => None
  | Some (off, _) =>
      let start := (off + length (lit "const grammarData = "))%nat in
      Some (scan Code 0 (drop start html_content))
  end.

End Upload.

(** ** Notions used in the statements *)

(** A test that holds at some position of a text; [prev] is the code point
    before the position. *)
Fixpoint anywhere (test : option pychar -> pystr -> bool)
    (prev : option pychar) (s : pystr) : bool :=
  test prev s
  || match s with
     | [] => false
     | x :: t => anywhere test (Some x) t
     end.

(** The code point before the position reached after [pre]. *)
Definition before (prev : option pychar) (pre : pystr) : option pychar :=
  match last pre with Some c => Some c | None => prev end.

(** A data block begins here, as the extractor of the validator reads it:
    the declaration prefix, an equals sign and an opening brace with
    optional white space between them and, anywhere further on, a line feed,
    a closing brace and a semicolon. *)
Definition block_at (s : pystr) : Prop :=
  exists ws1 ws2 body post,
    s = lit "const grammarData" ++ ws1 ++ [61] ++ ws2 ++ [123] ++ body
        ++ [10; 125; 59] ++ post
    /\ forallb isspace ws1 = true /\ forallb isspace ws2 = true.

(** Two slashes. *)
Definition line_comment_at (_ : option pychar) (s : pystr) : bool :=
  starts_with (lit "//") s.

(** A slash and a star, closed further on by a star and a slash. *)
Definition block_comment_at (_ : option pychar) (s : pystr) : bool :=
  starts_with (lit "/*") s && contains (lit "*/") (drop 2 s).

(** A comma, then optional space, then a closing brace or bracket. *)
Definition trailing_comma_at (_ : option pychar) (s : pystr) : bool :=
  match s with
  | 44 :: r =>
      match skip isspace r with
      | c :: _ => oneof [125; 93] c
      | [] => false
      end
  | _ => false
  end.

Section Keys.
Context {rt : Runtime}.

(** Just after a brace, a comma or a line feed: optional space, a word,
    optional space, a colon. *)
Definition bare_key_at (prev : option pychar) (s : pystr) : bool :=
  match prev with
  | Some c =>
      oneof [123; 44; 10] c &&
      (let s1 := skip isspace s in
       let s2 := skip isword s1 in
       negb (length s2 =? length s1)%nat && starts_with [58] (skip isspace s2))
  | None => false
  end.

(** The text has none of the three things the normalisation removes or
    rewrites, wherever they stand. *)
Definition plain_literal (t : pystr) : bool :=
  negb (anywhere line_comment_at None t)
  && negb (anywhere block_comment_at None t)
  && negb (anywhere bare_key_at None t)
  && negb (anywhere trailing_comma_at None t).

End Keys.

(** The text outside string literals: the quotes stay, what they enclose
    goes. *)
Fixpoint outside_strings (m : Upload.mode) (s : pystr) : pystr :=
  match s with
  | [] => []
  | ch :: t =>
      match m with
      | Upload.Code =>
          if (ch =? 34) || (ch =? 39) || (ch =? 96)
          then ch :: outside_strings (Upload.InString ch) t
          else ch :: outside_strings Upload.Code t
      | Upload.InString q =>
          if ch =? q then ch :: outside_strings Upload.Code t
          else if ch =? 92 then outside_strings (Upload.Escaped q) t
          else outside_strings (Upload.InString q) t
      | Upload.Escaped q => outside_strings (Upload.InString q) t
      end
  end.

(** A finding of another check than the category check. *)
Definition per_question (x : finding) : Prop := f_type x <> categoryMap_mismatch.

(** The findings of one kind. *)
Definition of_kind (k : kind) (issues : list finding) : list finding :=
  filter (fun x => f_type x = k) issues.

(** The findings a call hands to the report: none when it raises. *)
Definition emitted (r : result report) : list finding :=
  match r with
  | Ok rep => report_issues rep
  | Raise _ => []
  end.

Definition findings_of (r : result report) : result (list finding) :=
  do rep <- r; Ok (report_issues rep).

(** The files of a run: the arguments, when there are some and each is a
    file; without arguments, the lesson files of the lesson directory, when
    it exists. *)
Definition selected (fs : filesystem) (argv files : list pystr) : Prop :=
  if bool_decide (1 < length argv)%nat then
    files = drop 1 argv /\ Forall (fun arg => isfile fs arg = true) files
  else
    fs_isdir fs DUAL_SCOPE_DIR = true /\ files = lesson_files fs.

Section Passing.
Context {rt : Runtime} {order : SetOrder} {out : Output}.

(** A file passes: it is validated without an exception and without a
    finding, and its report is written. *)
Definition passes (fs : filesystem) (f : pystr) : Prop :=
  exists r, validate_file fs f = Ok r /\ report_issues r = [] /\ print_report r = Ok true.

End Passing.

(** Lesson data of the shape the lesson files have: texts where the checks
    call a text method, lists where they iterate.  Other fields are free. *)
Definition is_text (v : json) : Prop := exists s, v = JStr s.

Definition list_of (P : json -> Prop) (v : json) : Prop :=
  exists l, v = JArr l /\ Forall P l.

Definition optional (P : json -> Prop) (o : option json) : Prop :=
  match o with
  | Some v => P v
  | None => True
  end.

Definition well_formed_entry (e : json) : Prop :=
  match e with
  | JArr (e0 :: _ :: _) => is_text e0
  | _ => True
  end.

Definition well_formed_question (q : json) : Prop :=
  exists kvs, q = JObj kvs
    /\ optional is_text (lookup_key (lit "answer") kvs)
    /\ optional (list_of well_formed_entry) (lookup_key (lit "vocab") kvs)
    /\ optional (list_of is_text) (lookup_key (lit "hint") kvs).

Definition well_formed_section (sec : json) : Prop :=
  exists kvs, sec = JObj kvs
    /\ optional is_text (lookup_key (lit "title") kvs)
    /\ optional (list_of well_formed_question) (lookup_key (lit "questions") kvs).

(** [d[k] = v] on the items of a dict. *)
Fixpoint dict_set (k : pystr) (v : json) (kvs : list (pystr * json)) : list (pystr * json) :=
  match kvs with
  | [] => [(k, v)]
  | (k', v') :: r => if streq k' k then (k, v) :: r else (k', v') :: dict_set k v r
  end.

(** ** A runtime for the examples *)

(** A reader for the JSON the examples use: objects, arrays, strings with
    backslash escapes of a quote, a backslash or [n], natural numbers and
    the three names.  The theorems are stated for every runtime. *)
Module MiniJson.

Definition ws (c : pychar) : bool := (c =? 32) || (c =? 9) || (c =? 10) || (c =? 13).

Fixpoint parse_string (s acc : pystr) : option (pystr * pystr) :=
  match s with
  | [] => None
  | c :: t =>
      if c =? 34 then Some (reverse acc, t)
      else if c =? 92 then
        match t with
        | e :: t' => parse_string t' ((if e =? 110 then 10 else e) :: acc)
        | [] => None
        end
      else parse_string t (c :: acc)
  end.

Fixpoint parse_digits (s : pystr) (acc : N) : N * pystr :=
  match s with
  | c :: t =>
      match ascii_digit c with
      | Some d => parse_digits t (10 * acc + d)
      | None => (acc, s)
      end
  | [] => (acc, [])
  end.

Definition add_member (k : pystr) (v : json) (later : list (pystr * json))
    : list (pystr * json) :=
  match lookup_key k later with
  | Some v' => (k, v') :: filter (fun kv => fst kv ≠ k) later
  | None => (k, v) :: later
  end.

Fixpoint parse_value (fuel : nat) (s : pystr) {struct fuel} : option (json * pystr) :=
  match fuel with
  | O => None
  | S f =>
      match skip ws s with
      | [] => None
      | c :: t =>
          if c =? 123 then
            match skip ws t with
            | 125 :: t' => Some (JObj [], t')
            | _ => match parse_members f t with
                   | Some (kvs, r) => Some (JObj kvs, r)
                   | None => None
                   end
            end
          else if c =? 91 then
            match skip ws t with
            | 93 :: t' => Some (JArr [], t')
            | _ => match parse_elements f t with
                   | Some (l, r) => Some (JArr l, r)
                   | None => None
                   end
            end
          else if c =? 34 then
            match parse_string t [] with
            | Some (str, r) => Some (JStr str, r)
            | None => None
            end
          else if starts_with (lit "true") (c :: t) then Some (JBool true, drop 4 (c :: t))
          else if starts_with (lit "false") (c :: t) then Some (JBool false, drop 5 (c :: t))
          else if starts_with (lit "null") (c :: t) then Some (JNull, drop 4 (c :: t))
          else
            match ascii_digit c with
            | Some _ => let '(n, r) := parse_digits (c :: t) 0 in Some (JInt (Z.of_N n), r)
            | None => None
            end
      end
  end
with parse_members (fuel : nat) (s : pystr) {struct fuel}
    : option (list (pystr * json) * pystr) :=
  match fuel with
  | O => None
  | S f =>
      match skip ws s with
      | 34 :: t =>
          match parse_string t [] with
          | Some (k, r) =>
              match skip ws r with
              | 58 :: r1 =>
                  match parse_value f r1 with
                  | Some (v, r2) =>
                      match skip ws r2 with
                      | 44 :: r3 =>
                          match parse_members f r3 with
                          | Some (kvs, r4) => Some (add_member k v kvs, r4)
                          | None => None
                          end
                      | 125 :: r3 => Some ([(k, v)], r3)
                      | _ => None
                      end
                  | None => None
                  end
              | _ => None
              end
          | None => None
          end
      | _ => None
      end
  end
with parse_elements (fuel : nat) (s : pystr) {struct fuel} : option (list json * pystr) :=
  match fuel with
  | O => None
  | S f =>
      match parse_value f s with
      | Some (v, r) =>
          match skip ws r with
          | 44 :: r1 =>
              match parse_elements f r1 with
              | Some (l, r2) => Some (v :: l, r2)
              | None => None
              end
          | 93 :: r1 => Some ([v], r1)
          | _ => None
          end
      | None => None
      end
  end.

Definition loads (s : pystr) : result (json + pystr) :=
  match parse_value (S (length s)) s with
  | Some (v, r) =>
      match skip ws r with
      | [] => Ok (inl v)
      | _ => Ok (inr (lit "Extra data"))
      end
  | None => Ok (inr (lit "Expecting value"))
  end.

End MiniJson.

(** Tables that stop at ASCII: beyond it no code point is alphanumeric or a
    digit, and [lower] leaves it as it is.  The limit on digits is the
    default of the interpreter. *)
Definition ascii_runtime : Runtime := {|
  isalnum_ext := fun _ => false;
  lower_ext := map ascii_lower;
  digit_ext := fun _ => None;
  json_loads := MiniJson.loads;
  int_max_str_digits := 4300;
  alnum_not_space := fun c (H : false = true) => False_ind _ (Bool.diff_false_true H)
|}.

(** Two orders of iteration over a set: that of the elements as the library
    lists them, and the reverse. *)
Definition listed_order : SetOrder := {|
  set_iter := elements;
  set_iter_perm := fun s => reflexivity (elements s)
|}.

Definition reversed_order : SetOrder := {|
  set_iter := fun s => reverse (elements s);
  set_iter_perm := fun s => reverse_Permutation (elements s)
|}.

(** A standard output in UTF-8, which has every code point but the
    surrogates, and one in ASCII.  The examples print no float, list or
    dict. *)
Definition utf8_output : Output := {|
  encodable := fun c => negb ((55296 <=? c) && (c <=? 57343));
  str_ext := fun _ => lit "?"
|}.

Definition ascii_output : Output := {|
  encodable := fun c => c <? 128;
  str_ext := fun _ => lit "?"
|}.

(** A file system that holds one file. *)
Definition single_file (path : pystr) (f : file) : filesystem := {|
  fs_file := fun p => if streq p path then Some f else None;
  fs_isdir := fun _ => false;
  fs_listdir := fun _ => []
|}.

Definition text_file (t : pystr) : file := File (N.of_nat (length t)) (Some t).

(** ** Inputs of the examples *)

(** The document of the counterexample to C1: a template literal that holds
    a brace, a line feed, a brace and a semicolon. *)
Definition template_doc : pystr := js "const grammarData = {|  note: `}|};`|};".

(** The failing input of C3: one string value that holds a comma, a word and
    a colon. *)
Definition quoted_colon_literal : pystr := js "{'t': 'a, b: c'}".

(** The question of the failing input of C4: a correction whose right-hand
    side stands in the hint. *)
Definition correction_answer : pystr := lit "was " ++ [arrow] ++ lit " went".
Definition correction_question : json :=
  JObj [(key "num", JInt 3);
        (key "answer", JStr correction_answer);
        (key "hint", JArr [JStr (lit "Use went here.")])].

(** A lesson with one section and one question that no check objects to,
    and a category mapping that names the sections 0 and 1. *)
Definition lesson_doc : pystr :=
  js ("<script>|const grammarData = {|  sections: [|    { title: 'Basics', questions: [|"
      ++ "      { num: 1, text: 'He ( ) kind.', answer: 'b. seems', translation: 'x',|"
      ++ "        hint: ['one', 'two', 'three'] }|    ] }|  ]|};|"
      ++ "const nav = { categoryMap: { basic: [0, 1] } };|</script>").

(** The same lesson without the mapping. *)
Definition lesson_doc_unmapped : pystr :=
  js ("<script>|const grammarData = {|  sections: [|    { title: 'Basics', questions: [|"
      ++ "      { num: 1, text: 'He ( ) kind.', answer: 'b. seems', translation: 'x',|"
      ++ "        hint: ['one', 'two', 'three'] }|    ] }|  ]|};|</script>").

(** The same lesson with a mapping that names section 0 alone. *)
Definition lesson_doc_exact : pystr :=
  js ("<script>|const grammarData = {|  sections: [|    { title: 'Basics', questions: [|"
      ++ "      { num: 1, text: 'He ( ) kind.', answer: 'b. seems', translation: 'x',|"
      ++ "        hint: ['one', 'two', 'three'] }|    ] }|  ]|};|"
      ++ "const nav = { categoryMap: { basic: [0] } };|</script>").

(** The same lesson with a mapping whose key holds a digit, with a mapping
    that holds nothing, and with a mapping that names the sections 5, 0
    and 3. *)
Definition lesson_doc_digit_key : pystr :=
  js ("<script>|const grammarData = {|  sections: [|    { title: 'Basics', questions: [|"
      ++ "      { num: 1, text: 'He ( ) kind.', answer: 'b. seems', translation: 'x',|"
      ++ "        hint: ['one', 'two', 'three'] }|    ] }|  ]|};|"
      ++ "const nav = { categoryMap: { cat1: [0] } };|</script>").

Definition lesson_doc_empty_map : pystr :=
  js ("<script>|const grammarData = {|  sections: [|    { title: 'Basics', questions: [|"
      ++ "      { num: 1, text: 'He ( ) kind.', answer: 'b. seems', translation: 'x',|"
      ++ "        hint: ['one', 'two', 'three'] }|    ] }|  ]|};|"
      ++ "const nav = { categoryMap: {} };|</script>").

Definition lesson_doc_scattered : pystr :=
  js ("<script>|const grammarData = {|  sections: [|    { title: 'Basics', questions: [|"
      ++ "      { num: 1, text: 'He ( ) kind.', answer: 'b. seems', translation: 'x',|"
      ++ "        hint: ['one', 'two', 'three'] }|    ] }|  ]|};|"
      ++ "const nav = { categoryMap: { basic: [5, 0, 3] } };|</script>").

Definition lesson_path : pystr := lit "lessons/Lesson 1.html".
Definition lesson_fs : filesystem := single_file lesson_path (text_file lesson_doc).
Definition copy_path : pystr := lit "backup/copy.html".
Definition copy_fs : filesystem := single_file copy_path (text_file lesson_doc).
Definition unmapped_fs : filesystem := single_file lesson_path (text_file lesson_doc_unmapped).
Definition exact_fs : filesystem := single_file lesson_path (text_file lesson_doc_exact).

(** A file of twelve bytes that are not UTF-8. *)
Definition unreadable_fs : filesystem := single_file lesson_path (File 12 None).

(** * Properties *)

(** ** The matcher *)

Section MatcherFacts.

Lemma starts_with_app (w s : pystr) : starts_with w (w ++ s) = true.
Proof.
  induction w as [|a w IH]; simpl; [reflexivity|].
  rewrite N.eqb_refl. exact IH.
Qed.

Lemma starts_with_split (w s : pystr) :
  starts_with w s = true -> exists r, s = w ++ r.
Proof.
  revert s. induction w as [|a w IH]; intros s H; simpl in *.
  - exists s. reflexivity.
  - destruct s as [|b s]; [discriminate|].
    apply andb_true_iff in H as [Hab Hw].
    apply N.eqb_eq in Hab. subst b.
    destruct (IH _ Hw) as [r ->]. exists r. reflexivity.
Qed.

Lemma contains_app (sub pre s : pystr) :
  contains sub s = true -> contains sub (pre ++ s) = true.
Proof.
  intros H. induction pre as [|a pre IH]; simpl; [exact H|].
  rewrite IH. apply orb_true_r.
Qed.

Lemma contains_start (sub s : pystr) : starts_with sub s = true -> contains sub s = true.
Proof. intros H. destruct s; simpl in *; rewrite H; reflexivity. Qed.

Lemma contains_anywhere (sub : pystr) (prev : option pychar) (s : pystr) :
  anywhere (fun _ t => starts_with sub t) prev s = contains sub s.
Proof.
  revert prev. induction s as [|x s IH]; intros prev; simpl; [reflexivity|].
  rewrite IH. reflexivity.
Qed.

Lemma skip_app (p : pychar -> bool) (ws : pystr) (c : pychar) (t : pystr) :
  forallb p ws = true -> p c = false -> skip p (ws ++ c :: t) = c :: t.
Proof.
  intros Hws Hc. induction ws as [|w ws IH]; simpl in *.
  - rewrite Hc. reflexivity.
  - apply andb_true_iff in Hws as [Hw Hws]. rewrite Hw. auto.
Qed.

Context {R : Type}.
Implicit Types (k : option pychar -> pystr -> nat -> option R).

(** A greedy repetition that succeeds has passed some code points of the
    class and then run its continuation. *)
Lemma star_greedy_sound p k prev s pos (m : R) :
  star_greedy p k prev s pos = Some m ->
  exists ws s' prev',
    s = ws ++ s' /\ forallb p ws = true /\ k prev' s' (pos + length ws)%nat = Some m.
Proof.
  revert prev pos. induction s as [|x t IH]; intros prev pos H; simpl in H.
  - exists [], [], prev. rewrite Nat.add_0_r. auto.
  - destruct (p x) eqn:Hp.
    + destruct (star_greedy p k (Some x) t (S pos)) as [m'|] eqn:Hs.
      * injection H as ->. destruct (IH _ _ Hs) as (ws & s' & prev' & -> & Hws & Hk).
        exists (x :: ws), s', prev'. simpl. rewrite Hp, Hws.
        replace (pos + S (length ws))%nat with (S pos + length ws)%nat by lia. auto.
      * exists [], (x :: t), prev. rewrite Nat.add_0_r. auto.
    + exists [], (x :: t), prev. rewrite Nat.add_0_r. auto.
Qed.

(** A lazy repetition that succeeds has passed the fewest code points after
    which its continuation succeeds. *)
Lemma star_lazy_sound p k prev s pos (m : R) :
  star_lazy p k prev s pos = Some m ->
  exists ws s' prev',
    s = ws ++ s' /\ forallb p ws = true /\ k prev' s' (pos + length ws)%nat = Some m
    /\ forall a x b, ws = a ++ x :: b ->
         exists prev'', k prev'' (x :: b ++ s') (pos + length a)%nat = None.
Proof.
  revert prev pos. induction s as [|x t IH]; intros prev pos H; simpl in H.
  - destruct (k prev [] pos) as [m'|] eqn:Hk; [|discriminate].
    exists [], [], prev. rewrite Nat.add_0_r.
    split; [reflexivity|]. split; [reflexivity|]. split; [congruence|].
    intros a y b Hab. destruct a; discriminate.
  - destruct (k prev (x :: t) pos) as [m'|] eqn:Hk.
    + exists [], (x :: t), prev. rewrite Nat.add_0_r.
      split; [reflexivity|]. split; [reflexivity|]. split; [congruence|].
      intros a y b Hab. destruct a; discriminate.
    + destruct (p x) eqn:Hp; [|discriminate].
      destruct (IH _ _ H) as (ws & s' & prev' & -> & Hws & Hk' & Hmin).
      exists (x :: ws), s', prev'. simpl. rewrite Hp, Hws.
      replace (pos + S (length ws))%nat with (S pos + length ws)%nat by lia.
      split; [reflexivity|]. split; [reflexivity|]. split; [exact Hk'|].
      intros a y b Hab. destruct a as [|a0 a]; simpl in Hab.
      * injection Hab as <- <-. exists prev. rewrite Nat.add_0_r. exact Hk.
      * injection Hab as <- ->. destruct (Hmin a y b eq_refl) as [pr Hn].
        exists pr. simpl. replace (pos + S (length a))%nat with (S pos + length a)%nat by lia.
        exact Hn.
Qed.

End MatcherFacts.

(** A match that begins with literal code points begins with them. *)
Lemma match_here_lits (w : pystr) (r : pattern) prev s pos gs ge m :
  match_here (map Lit w ++ r) prev s pos gs ge = Some m ->
  exists s' prev', s = w ++ s' /\ match_here r prev' s' (pos + length w)%nat gs ge = Some m.
Proof.
  revert prev s pos. induction w as [|c w IH]; intros prev s pos H; simpl in H.
  - exists s, prev. rewrite Nat.add_0_r. auto.
  - destruct s as [|x t]; [discriminate|].
    destruct (x =? c) eqn:Hx; [|discriminate].
    apply N.eqb_eq in Hx. subst x.
    destruct (IH _ _ _ H) as (s' & prev' & -> & Hm).
    exists s', prev'. simpl.
    replace (pos + S (length w))%nat with (S pos + length w)%nat by lia. auto.
Qed.

(** A search that succeeds has found a match at its offset. *)
Lemma search_from_sound items prev s off o m :
  search_from items prev s off = Some (o, m) ->
  exists pre suf,
    s = pre ++ suf /\ o = (off + length pre)%nat
    /\ match_at items (before prev pre) suf = Some m.
Proof.
  revert prev off. induction s as [|x t IH]; intros prev off H; simpl in H.
  - destruct (match_at items prev []) eqn:Hm; [|discriminate].
    injection H as <- <-. exists [], []. rewrite Nat.add_0_r. auto.
  - destruct (match_at items prev (x :: t)) eqn:Hm.
    + injection H as <- <-. exists [], (x :: t). rewrite Nat.add_0_r. auto.
    + destruct (IH _ _ H) as (pre & suf & -> & -> & Hs).
      exists (x :: pre), suf. simpl. split; [reflexivity|]. split; [lia|].
      unfold before in *. rewrite last_cons. destruct (last pre); exact Hs.
Qed.

(** Where a test fails at every position, a pattern that implies the test
    is not found. *)
Lemma search_from_none (test : option pychar -> pystr -> bool) items :
  (forall prev s m, match_at items prev s = Some m -> test prev s = true) ->
  forall s prev off, anywhere test prev s = false -> search_from items prev s off = None.
Proof.
  intros Htest. induction s as [|x t IH]; intros prev off H; simpl in *.
  - apply orb_false_iff in H as [H _].
    destruct (match_at items prev []) eqn:Hm; [|reflexivity].
    apply Htest in Hm. congruence.
  - apply orb_false_iff in H as [H Ht].
    destruct (match_at items prev (x :: t)) eqn:Hm.
    + apply Htest in Hm. congruence.
    + apply IH. exact Ht.
Qed.

(** Where the pattern is not found, the substitution changes nothing. *)
Lemma sub_go_not_found items repl :
  forall s prev off, search_from items prev s off = None -> sub_go items repl prev s 0 = s.
Proof.
  induction s as [|x t IH]; intros prev off H; simpl in *.
  - destruct (match_at items prev []); [discriminate|reflexivity].
  - destruct (match_at items prev (x :: t)); [discriminate|].
    f_equal. eapply IH. exact H.
Qed.

Lemma sub_not_found (test : option pychar -> pystr -> bool) items repl s :
  (forall prev t m, match_at items prev t = Some m -> test prev t = true) ->
  anywhere test None s = false -> sub items repl s = s.
Proof.
  intros Htest H. unfold sub. apply (sub_go_not_found items repl s None 0%nat).
  apply (search_from_none test); assumption.
Qed.

(** ** The extractor *)

(** What a match of the declaration pattern looks like. *)
Lemma before_cons prev x (w : pystr) : before (Some x) w = before prev (x :: w).
Proof. unfold before. rewrite last_cons. destruct (last w); reflexivity. Qed.

(** Literal code points are matched one by one. *)
Lemma match_here_lits_eq (w : pystr) (r : pattern) prev s pos gs ge :
  match_here (map Lit w ++ r) prev (w ++ s) pos gs ge
  = match_here r (before prev w) s (pos + length w)%nat gs ge.
Proof.
  revert prev pos. induction w as [|x w IH]; intros prev pos.
  - cbn [map app length]. rewrite Nat.add_0_r. reflexivity.
  - cbn [map app match_here length]. rewrite N.eqb_refl, IH, before_cons with (prev := prev).
    f_equal. lia.
Qed.

(** A match that exists at some position is found by the search, or an
    earlier one is. *)
Lemma search_from_complete items prev (pre suf : pystr) off m :
  match_at items (before prev pre) suf = Some m ->
  exists r, search_from items prev (pre ++ suf) off = Some r.
Proof.
  revert prev off. induction pre as [|x pre IH]; intros prev off H.
  - cbn [app]. destruct suf; cbn [search_from]; unfold before in H; cbn in H;
      rewrite H; eauto.
  - cbn [app search_from]. destruct (match_at items prev _); [eauto|].
    apply IH. rewrite before_cons with (prev := prev). exact H.
Qed.

(** The match the search returns is the leftmost: the pattern matches at no
    earlier position. *)
Lemma search_from_first items prev s off o m :
  search_from items prev s off = Some (o, m) ->
  forall pre suf, s = pre ++ suf -> (off + length pre < o)%nat ->
    match_at items (before prev pre) suf = None.
Proof.
  revert prev off. induction s as [|x t IH]; intros prev off H pre suf Hs Hlt.
  - cbn [search_from] in H. destruct (match_at items prev []); [|discriminate].
    injection H as <- _. lia.
  - cbn [search_from] in H. destruct (match_at items prev (x :: t)) eqn:Hm.
    { injection H as <- _. lia. }
    destruct pre as [|y pre].
    + cbn in Hs. subst suf. exact Hm.
    + cbn [app] in Hs. injection Hs as <- ->.
      rewrite <- before_cons with (prev := prev).
      apply (IH (Some x) (S off) H pre suf eq_refl). cbn [length] in Hlt. lia.
Qed.

Section Repetitions.
Context {R : Type}.
Implicit Types (k : option pychar -> pystr -> nat -> option R).

(** A repetition can stop after any run of code points of its class: if the
    rest of the pattern matches there, the repetition matches, there or
    elsewhere. *)
Lemma star_greedy_complete p k (ws s : pystr) :
  forallb p ws = true ->
  (forall prev pos, is_Some (k prev s pos)) ->
  forall prev pos, is_Some (star_greedy p k prev (ws ++ s) pos).
Proof.
  intros Hws Hk. induction ws as [|x ws IH]; intros prev pos.
  - cbn [app]. destruct s as [|y s]; cbn [star_greedy]; [apply Hk|].
    destruct (p y); [|apply Hk].
    destruct (star_greedy p k (Some y) s (S pos)); [eauto|apply Hk].
  - cbn in Hws. apply andb_true_iff in Hws as [Hx Hws].
    cbn [app star_greedy]. rewrite Hx.
    destruct (IH Hws (Some x) (S pos)) as [m ->]. eauto.
Qed.

Lemma star_lazy_complete p k (ws s : pystr) :
  forallb p ws = true ->
  (forall prev pos, is_Some (k prev s pos)) ->
  forall prev pos, is_Some (star_lazy p k prev (ws ++ s) pos).
Proof.
  intros Hws Hk. induction ws as [|x ws IH]; intros prev pos.
  - cbn [app]. destruct (Hk prev pos) as [m Hm].
    destruct s; cbn [star_lazy]; rewrite Hm; eauto.
  - cbn in Hws. apply andb_true_iff in Hws as [Hx Hws].
    cbn [app star_lazy]. destruct (k prev _ pos); [eauto|].
    rewrite Hx. apply IH, Hws.
Qed.

End Repetitions.

Lemma forallb_any (s : pystr) : forallb any s = true.
Proof. induction s; [reflexivity|exact IHs]. Qed.

(** Where a block begins, the pattern of the extractor matches. *)
Lemma grammar_data_match_complete prev (s : pystr) :
  block_at s -> is_Some (match_at grammar_data_re prev s).
Proof.
  intros (ws1 & ws2 & body & post & -> & H1 & H2).
  unfold match_at, grammar_data_re, lits.
  rewrite match_here_lits_eq. cbn [match_here].
  apply star_greedy_complete; [exact H1|]. intros prev1 pos1.
  cbn [app match_here]. rewrite N.eqb_refl.
  apply star_greedy_complete; [exact H2|]. intros prev2 pos2.
  cbn [app match_here]. rewrite N.eqb_refl.
  apply star_lazy_complete; [apply forallb_any|]. intros prev3 pos3.
  cbn [app match_here]. rewrite !N.eqb_refl. eauto.
Qed.

Lemma grammar_data_match prev s m :
  match_at grammar_data_re prev s = Some m ->
  exists ws1 ws2 body post,
    s = lit "const grammarData" ++ ws1 ++ [61] ++ ws2 ++ [123] ++ body ++ [10; 125] ++ [59] ++ post
    /\ forallb isspace ws1 = true /\ forallb isspace ws2 = true
    /\ g_start m = length (lit "const grammarData" ++ ws1 ++ [61] ++ ws2)
    /\ g_end m = Nat.add (g_start m) (length ([123] ++ body ++ [10; 125]))
    /\ (forall a b, body ++ [10; 125] <> a ++ [10; 125; 59] ++ b).
Proof.
  unfold match_at, grammar_data_re, lits. intros H.
  apply match_here_lits in H as (s1 & p1 & -> & H). cbn [match_here] in H.
  apply star_greedy_sound in H as (ws1 & s2 & p2 & -> & Hws1 & H).
  destruct s2 as [|x s2]; [discriminate|]. cbn [match_here] in H.
  destruct (x =? 61) eqn:Hx; [|discriminate]. apply N.eqb_eq in Hx. subst x.
  apply star_greedy_sound in H as (ws2 & s3 & p3 & -> & Hws2 & H).
  cbn [match_here] in H.
  destruct s3 as [|y s3]; [discriminate|].
  destruct (y =? 123) eqn:Hy; [|discriminate]. apply N.eqb_eq in Hy. subst y.
  apply star_lazy_sound in H as (body & s4 & p4 & -> & _ & H & Hmin).
  destruct s4 as [|z1 s4]; [discriminate|]. cbn [match_here] in H.
  destruct (z1 =? 10) eqn:Hz1; [|discriminate]. apply N.eqb_eq in Hz1. subst z1.
  destruct s4 as [|z2 s4]; [discriminate|].
  destruct (z2 =? 125) eqn:Hz2; [|discriminate]. apply N.eqb_eq in Hz2. subst z2.
  destruct s4 as [|z3 s4]; [discriminate|].
  destruct (z3 =? 59) eqn:Hz3; [|discriminate]. apply N.eqb_eq in Hz3. subst z3.
  injection H as <-.
  exists ws1, ws2, body, s4. cbn [g_start g_end].
  split; [reflexivity|]. split; [exact Hws1|]. split; [exact Hws2|].
  split; [rewrite !length_app; simpl; lia|].
  split; [rewrite !length_app; simpl; lia|].
  intros a b Heq.
  apply app_eq_inv in Heq as [(k & Hbody & Hk)|(k & _ & Hk)].
  - destruct k as [|k1 k]; [discriminate|].
    injection Hk as <- Hk.
    destruct k as [|k2 k]; [discriminate|]. injection Hk as <- Hk.
    destruct k as [|k3 k]; [discriminate|]. injection Hk as <- Hk.
    destruct (Hmin a 10 (125 :: 59 :: k) Hbody) as [pr Hn].
    cbn in Hn. discriminate.
  - apply (f_equal length) in Hk. rewrite !length_app in Hk. simpl in Hk. lia.
Qed.

(** The text of group 1, read off a match whose parts are known. *)
Lemma group1_app (pre a g b : pystr) (m : found) :
  g_start m = length a -> g_end m = Nat.add (g_start m) (length g) ->
  group1 (pre ++ a ++ g ++ b) (0 + length pre) m = g.
Proof.
  intros Hs He. unfold group1. rewrite He, Nat.add_sub', Hs. simpl.
  rewrite (app_assoc pre a), <- length_app, drop_app_length, take_app_length.
  reflexivity.
Qed.


(** C1, as the code has it.  The extractor does not count braces.  When it
    returns a span, the span starts at the opening brace of the leftmost
    place where a block begins (the declaration prefix, an equals sign and an
    opening brace, and further on a line feed, a closing brace and a
    semicolon) and runs up to the first line feed and closing brace that a
    semicolon follows, whatever quotes or nesting lie between.  It returns a
    span whenever a block begins somewhere in the text, and where the prefix,
    or such an end, does not occur, nothing is found. *)
Theorem extract_grammar_data_text_spec (doc : pystr) :
  (forall span, extract_grammar_data_text doc = Some span ->
     exists pre ws1 ws2 body post,
       doc = pre ++ lit "const grammarData" ++ ws1 ++ [61] ++ ws2 ++ span ++ [59] ++ post
       /\ forallb isspace ws1 = true /\ forallb isspace ws2 = true
       /\ span = [123] ++ body ++ [10; 125]
       /\ (forall a b, body ++ [10; 125] <> a ++ [10; 125; 59] ++ b)
       /\ (forall p r, doc = p ++ r -> (length p < length pre)%nat -> ~ block_at r))
  /\ ((exists pre r, doc = pre ++ r /\ block_at r) ->
      exists span, extract_grammar_data_text doc = Some span)
  /\ (contains (lit "const grammarData") doc = false -> extract_grammar_data_text doc = None)
  /\ (contains [10; 125; 59] doc = false -> extract_grammar_data_text doc = None).
Proof.
  assert (Hsound : forall span, extract_grammar_data_text doc = Some span ->
     exists pre ws1 ws2 body post,
       doc = pre ++ lit "const grammarData" ++ ws1 ++ [61] ++ ws2 ++ span ++ [59] ++ post
       /\ forallb isspace ws1 = true /\ forallb isspace ws2 = true
       /\ span = [123] ++ body ++ [10; 125]
       /\ (forall a b, body ++ [10; 125] <> a ++ [10; 125; 59] ++ b)
       /\ (forall p r, doc = p ++ r -> (length p < length pre)%nat -> ~ block_at r)).
  { intros span H. unfold extract_grammar_data_text, search in H.
    destruct (search_from grammar_data_re None doc 0) as [[off m]|] eqn:Hs; [|discriminate].
    injection H as <-.
    pose proof (search_from_first _ _ _ _ _ _ Hs) as Hfirst.
    apply search_from_sound in Hs as (pre & suf & -> & -> & Hm).
    apply grammar_data_match in Hm as (ws1 & ws2 & body & post & -> & H1 & H2 & Hgs & Hge & Hmin).
    exists pre, ws1, ws2, body, post.
    assert (Hg : group1 (pre ++ (lit "const grammarData" ++ ws1 ++ [61] ++ ws2)
                          ++ ([123] ++ body ++ [10; 125]) ++ [59] ++ post)
                   (0 + length pre) m = [123] ++ body ++ [10; 125])
      by (apply group1_app; assumption).
    rewrite <- !app_assoc in Hg.
    split; [|split; [exact H1|split; [exact H2|split; [exact Hg|split; [exact Hmin|]]]]].
    - rewrite Hg. rewrite <- ?app_assoc. reflexivity.
    - intros p r Hd Hlt Hb.
      destruct (grammar_data_match_complete (before None p) r Hb) as [m' Hm'].
      rewrite (Hfirst p r Hd) in Hm' by (cbn; lia). discriminate. }
  split; [exact Hsound|].
  split; [|split; intros Hno].
  - intros (pre & r & -> & Hb).
    destruct (grammar_data_match_complete (before None pre) r Hb) as [m Hm].
    unfold extract_grammar_data_text, search.
    destruct (search_from_complete grammar_data_re None pre r 0 m Hm) as [[off m'] ->].
    eauto.
  - destruct (extract_grammar_data_text doc) as [span|] eqn:He; [|reflexivity].
    destruct (Hsound span eq_refl) as (pre & ws1 & ws2 & body & post & -> & _).
    rewrite contains_app in Hno; [discriminate|].
    apply contains_start, starts_with_app.
  - destruct (extract_grammar_data_text doc) as [span|] eqn:He; [|reflexivity].
    destruct (Hsound span eq_refl) as (pre & ws1 & ws2 & body & post & -> & _ & _ & -> & _).
    rewrite contains_app in Hno; [discriminate|].
    do 4 (apply contains_app).
    rewrite <- !app_assoc.
    apply (contains_app _ [123]). apply contains_app.
    apply contains_start. reflexivity.
Qed.

(** C1, counterexample.  On [template_doc] the brace scanner returns the
    balanced literal, and the extractor of the validator a span that ends
    inside the template literal. *)
Lemma extract_is_not_balanced_scan :
  Upload.extract_grammar_data_span template_doc = Some (js "{|  note: `}|};`|}")
  /\ extract_grammar_data_text template_doc = Some (js "{|  note: `}|}")
  /\ extract_grammar_data_text template_doc <> Upload.extract_grammar_data_span template_doc.
Proof.
  split; [vm_compute; reflexivity|].
  split; [vm_compute; reflexivity|].
  vm_compute. discriminate.
Qed.

(** ** The normalisation *)

Section Normalisation.
Context {rt : Runtime}.

Lemma isword_not_space (c : pychar) : isword c = true -> isspace c = false.
Proof.
  unfold isword, isalnum. destruct (is_ascii c) eqn:Ha.
  - unfold is_ascii in Ha. apply N.ltb_lt in Ha. unfold ascii_isalnum, isspace.
    rewrite !orb_true_iff, !andb_true_iff, !N.leb_le, N.eqb_eq.
    rewrite !orb_false_iff, !andb_false_iff, !N.leb_gt, !N.eqb_neq. lia.
  - intros H. apply orb_true_iff in H as [H|H].
    + apply alnum_not_space. exact H.
    + apply N.eqb_eq in H. subst c. discriminate.
Qed.

Lemma line_comment_match prev s m :
  match_at line_comment_re prev s = Some m -> line_comment_at prev s = true.
Proof.
  unfold match_at, line_comment_re, lits. intros H.
  apply match_here_lits in H as (s' & p & -> & _). apply starts_with_app.
Qed.

Lemma block_comment_match prev s m :
  match_at block_comment_re prev s = Some m -> block_comment_at prev s = true.
Proof.
  unfold match_at, block_comment_re, lits. intros H.
  apply match_here_lits in H as (s' & p & -> & H). cbn [match_here] in H.
  apply star_lazy_sound in H as (body & s2 & p2 & -> & _ & H & _).
  unfold block_comment_at. rewrite starts_with_app. simpl.
  apply contains_app.
  destruct s2 as [|x s2]; [discriminate|]. cbn [match_here] in H.
  destruct (x =? 42) eqn:Hx; [|discriminate]. apply N.eqb_eq in Hx. subst x.
  destruct s2 as [|y s2]; [discriminate|].
  destruct (y =? 47) eqn:Hy; [|discriminate]. apply N.eqb_eq in Hy. subst y.
  reflexivity.
Qed.

Lemma trailing_comma_match prev s m :
  match_at trailing_comma_re prev s = Some m -> trailing_comma_at prev s = true.
Proof.
  unfold match_at, trailing_comma_re. intros H. cbn [match_here] in H.
  destruct s as [|x s]; [discriminate|].
  destruct (x =? 44) eqn:Hx; [|discriminate]. apply N.eqb_eq in Hx. subst x.
  apply star_greedy_sound in H as (ws & s2 & p2 & -> & Hws & H).
  cbn [match_here] in H.
  destruct s2 as [|c s2]; [discriminate|].
  destruct (oneof [125; 93] c) eqn:Hc; [|discriminate].
  unfold trailing_comma_at. rewrite skip_app; [exact Hc|exact Hws|].
  unfold oneof in Hc. simpl in Hc. rewrite orb_false_r in Hc.
  apply orb_true_iff in Hc as [Hc|Hc]; apply N.eqb_eq in Hc; subst c; reflexivity.
Qed.

Lemma bare_key_match prev s m :
  match_at bare_key_re prev s = Some m -> bare_key_at prev s = true.
Proof.
  unfold match_at, bare_key_re, plusG. intros H. cbn [match_here app] in H.
  unfold bare_key_at. destruct prev as [c0|]; [|discriminate].
  cbn [holds_at] in H. destruct (oneof [123; 44; 10] c0); [|discriminate].
  apply star_greedy_sound in H as (ws1 & s1 & p1 & -> & Hws1 & H).
  cbn [match_here] in H.
  destruct s1 as [|x s1]; [discriminate|].
  destruct (isword x) eqn:Hx; [|discriminate].
  apply star_greedy_sound in H as (w & s2 & p2 & -> & Hw & H).
  cbn [match_here] in H.
  apply star_greedy_sound in H as (ws2 & s3 & p3 & -> & Hws2 & H).
  cbn [match_here] in H.
  destruct s3 as [|y s3]; [discriminate|].
  destruct (y =? 58) eqn:Hy; [|discriminate]. apply N.eqb_eq in Hy. subst y.
  rewrite (skip_app isspace ws1 x) by (auto using isword_not_space).
  assert (Hrest : skip isword ((x :: w) ++ ws2 ++ 58 :: s3) = ws2 ++ 58 :: s3).
  { destruct ws2 as [|b ws2]; simpl app at 2.
    - apply skip_app; [simpl; rewrite Hx; exact Hw|reflexivity].
    - apply skip_app; [simpl; rewrite Hx; exact Hw|].
      simpl in Hws2. apply andb_true_iff in Hws2 as [Hb _].
      destruct (isword b) eqn:Hwb; [|reflexivity].
      apply isword_not_space in Hwb. congruence. }
  simpl app in Hrest. rewrite Hrest.
  rewrite (skip_app isspace ws2 58) by (auto; reflexivity).
  simpl. rewrite andb_true_r.
  apply negb_true_iff, Nat.eqb_neq. rewrite !length_app. simpl. lia.
Qed.

(** What the normalisation does leave alone: a literal in which no two
    slashes, no block comment, no word before a colon after a brace, comma
    or line feed, and no comma before a closing brace or bracket occur
    anywhere, inside string values included. *)
Lemma js_to_json_plain_literal (t : pystr) :
  plain_literal t = true -> js_to_json t = t.
Proof.
  unfold plain_literal. intros H.
  apply andb_true_iff in H as [H H4]. apply andb_true_iff in H as [H H3].
  apply andb_true_iff in H as [H1 H2].
  apply negb_true_iff in H1, H2, H3, H4.
  unfold js_to_json.
  rewrite (sub_not_found line_comment_at line_comment_re drop_match t line_comment_match H1).
  rewrite (sub_not_found block_comment_at block_comment_re drop_match t block_comment_match H2).
  rewrite (sub_not_found bare_key_at bare_key_re quote_key t bare_key_match H3).
  apply (sub_not_found trailing_comma_at trailing_comma_re keep_group t trailing_comma_match H4).
Qed.

(** C2, on the failing input.  The two slashes of a URL inside a string
    value are taken for a comment: the rest of the line is dropped. *)
Theorem js_to_json_cuts_url_in_string :
  js_to_json (js "{'u': 'http://a.b'}") = js "{'u': 'http:".
Proof. vm_compute. reflexivity. Qed.

End Normalisation.

(** No runtime makes the normalisation the identity on the literals that
    have no comment, no bare key and no trailing comma outside their string
    values. *)
Lemma js_to_json_rewrites_inside_strings :
  ~ exists rt : Runtime,
      forall t, @plain_literal rt (outside_strings Upload.Code t) = true ->
                @js_to_json rt t = t.
Proof.
  intros [rt H]. specialize (H quoted_colon_literal).
  assert (Hp : plain_literal (outside_strings Upload.Code quoted_colon_literal) = true)
    by (vm_compute; reflexivity).
  apply H in Hp. vm_compute in Hp. discriminate.
Qed.

(** C3, on the failing input.  [quoted_colon_literal] is JSON already:
    the reader of the examples reads it, and outside its string values it
    has no comment, no bare key and no trailing comma.  The normalisation
    does not leave it as it is: it takes the word before the colon inside
    the string value for a bare key and puts it between quotes, and the
    result is no JSON any more. *)
Theorem js_to_json_quotes_word_in_string (rt : Runtime) :
  MiniJson.loads quoted_colon_literal = Ok (inl (JObj [(lit "t", JStr (lit "a, b: c"))]))
  /\ plain_literal (outside_strings Upload.Code quoted_colon_literal) = true
  /\ js_to_json quoted_colon_literal = js "{'t': 'a, 'b': c'}"
  /\ js_to_json quoted_colon_literal <> quoted_colon_literal
  /\ MiniJson.loads (js "{'t': 'a, 'b': c'}") = Ok (inr (lit "Expecting value")).
Proof.
  split; [vm_compute; reflexivity|]. split; [vm_compute; reflexivity|].
  split; [vm_compute; reflexivity|]. split; [vm_compute; discriminate|].
  vm_compute. reflexivity.
Qed.

(** The literal satisfies the premise and the normalisation yields a text
    with a quoted word in the middle of the string value. *)
Lemma js_to_json_quoted_colon_literal (rt : Runtime) :
  outside_strings Upload.Code quoted_colon_literal = [123; 34; 34; 58; 32; 34; 34; 125]
  /\ js_to_json quoted_colon_literal = js "{'t': 'a, 'b': c'}".
Proof. split; vm_compute; reflexivity. Qed.

(** A literal with quoted keys, nested values and no slash is returned
    unchanged. *)
Lemma js_to_json_plain_literal_witness :
  @js_to_json ascii_runtime (js "{|  'sections': [{'title': 'A', 'questions': []}]|}")
  = js "{|  'sections': [{'title': 'A', 'questions': []}]|}".
Proof. apply (@js_to_json_plain_literal ascii_runtime). vm_compute. reflexivity. Defined.

(** ** The leak checks *)

Section Leaks.
Context {rt : Runtime}.

Lemma lookup_dict_set_eq k v kvs : lookup_key k (dict_set k v kvs) = Some v.
Proof.
  induction kvs as [|[k' v'] r IH]; simpl.
  - unfold streq. rewrite bool_decide_eq_true_2; reflexivity.
  - destruct (streq k' k) eqn:Hk; simpl.
    + unfold streq. rewrite bool_decide_eq_true_2; reflexivity.
    + rewrite Hk. exact IH.
Qed.

Lemma lookup_dict_set_ne k k' v kvs :
  k <> k' -> lookup_key k' (dict_set k v kvs) = lookup_key k' kvs.
Proof.
  intros Hne. induction kvs as [|[k0 v0] r IH]; simpl.
  - unfold streq. rewrite bool_decide_eq_false_2; [reflexivity|exact Hne].
  - destruct (streq k0 k) eqn:Hk; simpl.
    + unfold streq in *. apply bool_decide_eq_true_1 in Hk. subst k0.
      rewrite !bool_decide_eq_false_2 by exact Hne. reflexivity.
    + rewrite IH. reflexivity.
Qed.

Lemma extend_each_skip {A B : Type} (f : A -> result (list B)) (pre post : list A) (e : A) :
  f e = Ok [] -> extend_each f (pre ++ e :: post) = extend_each f (pre ++ post).
Proof.
  intros He. induction pre as [|x pre IH]; simpl.
  - rewrite He. simpl. destruct (extend_each f post); reflexivity.
  - rewrite IH. reflexivity.
Qed.

(** A stoplisted word is in lower case and has no punctuation or outer
    space: the head word of the entry is compared as it stands. *)
Lemma common_word_plain (w : pystr) :
  w ∈ COMMON_WORDS -> strip (sub punctuation_re drop_match (lower w)) = w.
Proof.
  intros Hw. unfold COMMON_WORDS in Hw. rewrite elem_of_list_to_set in Hw.
  apply list_elem_of_In in Hw.
  assert (Hb : forallb (fun w => streq (strip (sub punctuation_re drop_match (lower w))) w)
                 common_word_list = true) by (vm_compute; reflexivity).
  rewrite List.forallb_forall in Hb. apply Hb in Hw.
  unfold streq in Hw. apply bool_decide_eq_true_1 in Hw. exact Hw.
Qed.

Lemma stoplisted_entry_skipped sentence_answer answer_words num title w rest :
  w ∈ COMMON_WORDS ->
  vocab_entry_issues sentence_answer answer_words num title (JArr (JStr w :: rest))
  = Ok [].
Proof.
  intros Hw. unfold vocab_entry_issues. destruct rest as [|d rest]; [reflexivity|].
  cbn [as_str bind].
  rewrite (common_word_plain w Hw). unfold is_common.
  rewrite bool_decide_eq_true_2 by exact Hw. reflexivity.
Qed.

(** C6.  A vocabulary entry whose head word is a stoplisted word adds no
    finding: the loop body yields none for it, and the check returns what it
    returns for the same question without the entry, whatever the answer
    text. *)
Theorem stoplisted_vocab_entry_never_leaks
    (kvs : list (pystr * json)) (title : json) (a w : pystr)
    (rest pre post : list json) :
  w ∈ COMMON_WORDS ->
  lookup_key (key "answer") kvs = Some (JStr a) ->
  lookup_key (key "vocab") kvs = Some (JArr (pre ++ JArr (JStr w :: rest) :: post)) ->
  (forall sentence_answer answer_words num,
     vocab_entry_issues sentence_answer answer_words num title (JArr (JStr w :: rest))
     = Ok [])
  /\ check_vocab_leaks (JObj kvs) title
     = check_vocab_leaks (JObj (dict_set (key "vocab") (JArr (pre ++ post)) kvs)) title.
Proof.
  intros Hw Ha Hv. split.
  { intros. apply stoplisted_entry_skipped. exact Hw. }
  unfold check_vocab_leaks, get.
  rewrite lookup_dict_set_eq.
  rewrite !(lookup_dict_set_ne (key "vocab")) by (vm_compute; discriminate).
  rewrite Ha, Hv. cbn [bind].
  destruct a as [|a0 a].
  { reflexivity. }
  cbn [truthy negb orb as_str bind iter].
  assert (Hl : truthy (JArr (pre ++ JArr (JStr w :: rest) :: post)) = true)
    by (destruct pre; reflexivity).
  cbn [truthy] in Hl. rewrite Hl. cbn [negb orb].
  rewrite extend_each_skip by (apply stoplisted_entry_skipped; exact Hw).
  destruct (pre ++ post) as [|x l] eqn:Hpp; reflexivity.
Qed.

(** C5.  For an answer that counts four words or more once its choice letter
    is removed, the hint check returns no finding, whatever the hints. *)
Theorem sentence_answer_no_hint_leaks
    (kvs : list (pystr * json)) (title : json) (a : pystr) :
  lookup_key (key "answer") kvs = Some (JStr a) ->
  (4 <= length (split_ws (strip_choice_prefix (strip a))))%nat ->
  check_hint_leaks (JObj kvs) title = Ok [].
Proof.
  intros Ha Hn. unfold check_hint_leaks, get. rewrite Ha. cbn [bind].
  destruct (negb (truthy (JStr a)) || negb (truthy _)); [reflexivity|].
  cbn [as_str bind]. unfold is_sentence_answer.
  rewrite bool_decide_eq_true_2 by exact Hn. reflexivity.
Qed.

End Leaks.

(** The witness of C5: a sentence answer next to a hint that repeats it. *)
Lemma sentence_answer_no_hint_leaks_witness :
  @check_hint_leaks ascii_runtime
    (JObj [(key "answer", JStr (lit "a. I think that he is honest"));
           (key "hint", JArr [JStr (lit "I think that he is honest")])])
    (JStr (lit "Composition"))
  = Ok [].
Proof.
  apply (@sentence_answer_no_hint_leaks ascii_runtime _ _ (lit "a. I think that he is honest")).
  - reflexivity.
  - vm_compute. lia.
Defined.

(** The witness of C6: the entry for "the" beside an entry that leaks. *)
Lemma stoplisted_vocab_entry_never_leaks_witness :
  let the := JArr [JStr (lit "the"); JStr (lit "article")] in
  let honest := JArr [JStr (lit "honest"); JStr (lit "truthful")] in
  let q := [(key "answer", JStr (lit "b. the honest")); (key "vocab", JArr [honest; the])] in
  (forall sentence_answer answer_words num,
     @vocab_entry_issues ascii_runtime sentence_answer answer_words num (JStr (lit "A")) the
     = Ok [])
  /\ @check_vocab_leaks ascii_runtime (JObj q) (JStr (lit "A"))
     = @check_vocab_leaks ascii_runtime
         (JObj (dict_set (key "vocab") (JArr ([honest] ++ [])) q)) (JStr (lit "A")).
Proof.
  cbv zeta.
  apply (@stoplisted_vocab_entry_never_leaks ascii_runtime _ _ (lit "b. the honest")
           (lit "the") [JStr (lit "article")]
           [JArr [JStr (lit "honest"); JStr (lit "truthful")]] []).
  - vm_compute. reflexivity.
  - reflexivity.
  - reflexivity.
Defined.

(** C4, on the failing input.  The answer words of the correction are its
    right-hand side alone, and the hint holds that word: the loop body run
    on it reports hint 1.  The hint check splits the answer itself, keeps
    the arrow and the wrong form in the phrase it looks for, and reports
    nothing. *)
Theorem check_hint_leaks_keeps_wrong_side :
  @extract_answer_words ascii_runtime correction_answer = [lit "went"]
  /\ @hint_issues ascii_runtime [lit "went"] (JInt 3) (JStr (lit "A")) 0
       (JStr (lit "Use went here."))
     = Ok [Finding hint_leak HIGH (JInt 3) (JStr (lit "A"))
             (lit "Hint 1 contains answer 'went': " ++ [34] ++ lit "Use went here...." ++ [34])]
  /\ @check_hint_leaks ascii_runtime correction_question (JStr (lit "A")) = Ok [].
Proof. repeat split; vm_compute; reflexivity. Qed.

(** ** The file-level checks *)

Section FileChecks.
Context {rt : Runtime} {order : SetOrder} {out : Output}.

Lemma of_kind_app k (l1 l2 : list finding) :
  of_kind k (l1 ++ l2) = of_kind k l1 ++ of_kind k l2.
Proof. apply filter_app. Qed.

Lemma of_kind_per_question (l : list finding) :
  Forall per_question l -> of_kind categoryMap_mismatch l = [].
Proof.
  induction 1 as [|x l Hx _ IH]; [reflexivity|].
  unfold of_kind in *. rewrite filter_cons. destruct (decide _) as [He|_]; [|exact IH].
  destruct (Hx He).
Qed.

Lemma extend_each_Forall {A : Type} (P : finding -> Prop)
    (f : A -> result (list finding)) (xs : list A) (l : list finding) :
  (forall x ys, f x = Ok ys -> Forall P ys) ->
  extend_each f xs = Ok l -> Forall P l.
Proof.
  intros Hf. revert l. induction xs as [|x xs IH]; intros l H; simpl in H.
  - injection H as <-. constructor.
  - destruct (f x) as [ys|] eqn:Hx; [|discriminate]. cbn [bind] in H.
    destruct (extend_each f xs) as [zs|]; [|discriminate]. cbn [bind] in H.
    injection H as <-. apply Forall_app. split; [eapply Hf; exact Hx|apply IH; reflexivity].
Qed.

Lemma extend_each_i_Forall {A : Type} (P : finding -> Prop)
    (f : nat -> A -> result (list finding)) (xs : list A) (i : nat) (l : list finding) :
  (forall i x ys, f i x = Ok ys -> Forall P ys) ->
  extend_each_i f i xs = Ok l -> Forall P l.
Proof.
  intros Hf. revert i l. induction xs as [|x xs IH]; intros i l H; simpl in H.
  - injection H as <-. constructor.
  - destruct (f i x) as [ys|] eqn:Hx; [|discriminate]. cbn [bind] in H.
    destruct (extend_each_i f (S i) xs) as [zs|] eqn:Hr; [|discriminate]. cbn [bind] in H.
    injection H as <-. apply Forall_app. split; [eapply Hf; exact Hx|eapply IH; exact Hr].
Qed.

Lemma Forall_concat_map {A : Type} (P : finding -> Prop) (f : A -> list finding) (xs : list A) :
  (forall x, Forall P (f x)) -> Forall P (concat (map f xs)).
Proof.
  intros Hf. induction xs as [|x xs IH]; simpl; [constructor|].
  apply Forall_app. split; [apply Hf|exact IH].
Qed.

Ltac one_kind :=
  repeat match goal with
         | |- Forall _ (if ?b then _ else _) => destruct b
         | |- Forall _ [] => constructor
         | |- Forall _ (_ :: _) => constructor
         | |- per_question _ => unfold per_question; simpl; discriminate
         end.

Lemma check_vocab_leaks_kinds q title l :
  check_vocab_leaks q title = Ok l -> Forall per_question l.
Proof.
  unfold check_vocab_leaks. intros H.
  destruct (get q (key "answer") (JStr [])) as [answer|]; [|discriminate].
  destruct (get q (key "vocab") (JArr [])) as [vocab|]; [|discriminate].
  destruct (get q (key "text") (JStr [])) as [qt|]; [|discriminate].
  destruct (get q (key "num") default_num) as [num|]; [|discriminate].
  cbn [bind] in H.
  destruct (negb (truthy answer) || negb (truthy vocab)).
  { injection H as <-. constructor. }
  destruct (as_str answer) as [a|]; [|discriminate]. cbn [bind] in H.
  destruct (iter vocab) as [entries|]; [|discriminate]. cbn [bind] in H.
  eapply extend_each_Forall; [|exact H].
  intros entry ys Hy. unfold vocab_entry_issues in Hy.
  destruct entry as [| | | | |[|e0 [|e1 es]]|]; try (injection Hy as <-; constructor).
  destruct (as_str e0) as [entry0|]; [|discriminate]. cbn [bind] in Hy.
  destruct (is_common _); injection Hy as <-; [constructor|].
  apply Forall_concat_map. intros aw. unfold vocab_word_issues. one_kind.
Qed.

Lemma check_hint_leaks_kinds q title l :
  check_hint_leaks q title = Ok l -> Forall per_question l.
Proof.
  unfold check_hint_leaks. intros H.
  destruct (get q (key "answer") (JStr [])) as [answer|]; [|discriminate].
  destruct (get q (key "hint") (JArr [])) as [hints|]; [|discriminate].
  destruct (get q (key "num") default_num) as [num|]; [|discriminate].
  cbn [bind] in H.
  destruct (negb (truthy answer) || negb (truthy hints)).
  { injection H as <-. constructor. }
  destruct (as_str answer) as [a|]; [|discriminate]. cbn [bind] in H.
  destruct (is_sentence_answer a).
  { injection H as <-. constructor. }
  destruct (iter hints) as [hint_list|]; [|discriminate]. cbn [bind] in H.
  eapply extend_each_i_Forall; [|exact H].
  intros i hint ys Hy. unfold hint_issues in Hy.
  destruct (as_str hint) as [h|]; [|discriminate]. cbn [bind] in Hy.
  injection Hy as <-. apply Forall_concat_map. intros aw.
  unfold hint_word_issues. one_kind.
Qed.

Lemma demote_kind x : f_type (demote x) = f_type x.
Proof. unfold demote. destruct (_ && _); reflexivity. Qed.

Lemma check_required_fields_kinds q title l :
  check_required_fields q title = Ok l -> Forall per_question l.
Proof.
  unfold check_required_fields. intros H.
  destruct (get q (key "num") default_num) as [num|]; [|discriminate]. cbn [bind] in H.
  destruct (extend_each _ _) as [issues|] eqn:He; [|discriminate]. cbn [bind] in H.
  assert (Hi : Forall per_question issues).
  { eapply extend_each_Forall; [|exact He].
    intros field ys Hy. unfold missing_field_issue in Hy.
    destruct (get q (key field) JNull) as [value|]; [|discriminate]. cbn [bind] in Hy.
    destruct (blank value); injection Hy as <-; one_kind. }
  destruct (get q (key "vocab") JNull) as [vocab|]; [|discriminate].
  destruct (get q (key "hint") JNull) as [hint|]; [|discriminate]. cbn [bind] in H.
  destruct (as_str title) as [t|]; [|discriminate]. cbn [bind] in H.
  assert (Hi' : Forall per_question
                  (if negb (truthy vocab) && negb (truthy hint)
                   then issues ++ [Finding no_pedagogy LOW num title
                                     (lit "No vocab AND no hints (student gets no help)")]
                   else issues)).
  { destruct (_ && _); [|exact Hi]. apply Forall_app. split; [exact Hi|one_kind]. }
  destruct (existsb _ _); injection H as <-; [|exact Hi'].
  apply Forall_map. eapply Forall_impl; [exact Hi'|].
  intros x Hx. unfold per_question in *. simpl. rewrite demote_kind. exact Hx.
Qed.

Lemma check_hint_count_kinds q title l :
  check_hint_count q title = Ok l -> Forall per_question l.
Proof.
  unfold check_hint_count. intros H.
  destruct (get q (key "hint") (JArr [])) as [hints|]; [|discriminate].
  destruct (get q (key "num") default_num) as [num|]; [|discriminate]. cbn [bind] in H.
  destruct (truthy hints); [|injection H as <-; constructor].
  destruct (len hints) as [n|]; [|discriminate]. cbn [bind] in H.
  destruct (negb _); injection H as <-; one_kind.
Qed.

Lemma question_issues_kinds title q l :
  question_issues title q = Ok l -> Forall per_question l.
Proof.
  unfold question_issues. intros H.
  destruct (check_vocab_leaks q title) as [a|] eqn:Ha; [|discriminate].
  destruct (check_hint_leaks q title) as [b|] eqn:Hb; [|discriminate].
  destruct (check_required_fields q title) as [c|] eqn:Hc; [|discriminate].
  destruct (check_hint_count q title) as [d|] eqn:Hd; [|discriminate].
  cbn [bind] in H. injection H as <-.
  rewrite !Forall_app.
  repeat split;
    eauto using check_vocab_leaks_kinds, check_hint_leaks_kinds,
      check_required_fields_kinds, check_hint_count_kinds.
Qed.

(** The loop over the sections adds findings of the question checks only. *)
Lemma sections_issues_kinds sections acc acc' :
  sections_issues acc sections = Ok acc' ->
  exists extra, snd acc' = snd acc ++ extra /\ Forall per_question extra.
Proof.
  revert acc. induction sections as [|sec r IH]; intros acc H; simpl in H.
  - injection H as <-. exists []. rewrite app_nil_r. split; [reflexivity|constructor].
  - destruct (section_issues acc sec) as [acc1|] eqn:Hs; [|discriminate]. cbn [bind] in H.
    destruct (IH _ H) as (extra & -> & Hextra).
    unfold section_issues in Hs.
    destruct (get sec (key "title") _) as [title|]; [|discriminate].
    destruct (get sec (key "questions") _) as [questions|]; [|discriminate].
    cbn [bind] in Hs.
    destruct (len questions) as [n|]; [|discriminate]. cbn [bind] in Hs.
    destruct (iter questions) as [qs|]; [|discriminate]. cbn [bind] in Hs.
    destruct (extend_each (question_issues title) qs) as [issues|] eqn:He; [|discriminate].
    cbn [bind] in Hs. injection Hs as <-. simpl.
    exists (issues ++ extra). rewrite app_assoc. split; [reflexivity|].
    apply Forall_app. split; [|exact Hextra].
    eapply extend_each_Forall; [|exact He]. intros q ys. apply question_issues_kinds.
Qed.

(** What a completed validation is made of: the size finding, the findings
    of the category check, and findings of the question checks. *)
Lemma validate_file_complete fs path name issues meta :
  validate_file fs path = Ok (name, issues, Some meta) ->
  exists content data sections size_issues cat extra,
    read_text fs path = Ok content
    /\ parse_grammar_data content = Ok (inl data)
    /\ get data (key "sections") (JArr []) = Ok sections
    /\ len sections = Ok (meta_sections meta)
    /\ category_map_issues content sections = Ok cat
    /\ issues = size_issues ++ cat ++ extra
    /\ Forall per_question size_issues /\ Forall per_question extra.
Proof.
  unfold validate_file. intros H.
  destruct (getsize fs path) as [size|]; [|discriminate]. cbn [bind] in H.
  destruct (read_text fs path) as [content|]; [|discriminate]. cbn [bind] in H.
  destruct (parse_grammar_data content) as [[data|err]|] eqn:Hp; [|discriminate..].
  cbn [bind] in H.
  destruct (get data (key "sections") (JArr [])) as [sections|] eqn:Hg; [|discriminate].
  cbn [bind] in H.
  destruct (negb (truthy sections)); [discriminate|].
  destruct (category_map_issues content sections) as [cat|] eqn:Hc; [|discriminate].
  cbn [bind] in H.
  destruct (iter sections) as [section_list|]; [|discriminate]. cbn [bind] in H.
  destruct (sections_issues _ section_list) as [acc|] eqn:Hs; [|discriminate].
  cbn [bind] in H.
  destruct (len sections) as [n|] eqn:Hn; [|discriminate]. cbn [bind] in H.
  injection H as _ <- <-.
  apply sections_issues_kinds in Hs as (extra & Hacc & Hextra). cbn [snd] in Hacc.
  eexists content, data, sections, _, cat, extra.
  split; [reflexivity|]. split; [exact Hp|]. split; [exact Hg|].
  split; [exact Hn|]. split; [exact Hc|].
  split; [rewrite Hacc, <- app_assoc; reflexivity|].
  split; [|exact Hextra].
  destruct (MAX_HTML_SIZE <? size); one_kind.
Qed.

(** *** The sets of the category check *)

(** [set(range(n))] holds the indices below [n]. *)
Lemma elem_of_range_set (n : nat) (i : N) : i ∈ range_set n <-> i < N.of_nat n.
Proof.
  unfold range_set. rewrite elem_of_list_to_set.
  change (map N.of_nat (seq 0 n)) with (N.of_nat <$> seq 0 n).
  rewrite list_elem_of_fmap. split.
  - intros (k & -> & Hk). apply elem_of_seq in Hk. lia.
  - intros Hi. exists (N.to_nat i). split; [lia|]. apply elem_of_seq. lia.
Qed.

(** [sorted(s)] lists the elements of the set in increasing order. *)
Lemma sorted_spec (s : gset N) :
  Sorted N.le (sorted s) /\ forall i, i ∈ sorted s <-> i ∈ s.
Proof.
  unfold sorted. split.
  - apply (Sorted_merge_sort N.le).
  - intros i. rewrite merge_sort_Permutation, set_iter_perm. apply elem_of_elements.
Qed.

(** [strip] leaves a text that begins and ends with a code point that is
    not white space, and drops one space after such an end. *)
Lemma skip_head (p : pychar -> bool) (t : pystr) (z : pychar) :
  head t = Some z -> p z = false -> skip p t = t.
Proof.
  destruct t as [|x t]; [discriminate|]. intros [= ->] Hz. simpl. rewrite Hz. reflexivity.
Qed.

Lemma strip_ends (s : pystr) (a z : pychar) :
  head s = Some a -> last s = Some z -> isspace a = false -> isspace z = false ->
  strip s = s.
Proof.
  intros Hh Hl Ha Hz. unfold strip, rstrip, lstrip.
  rewrite (skip_head isspace s a Hh Ha).
  rewrite (skip_head isspace (reverse s) z) by (rewrite ?head_reverse; assumption).
  apply reverse_involutive.
Qed.

Lemma strip_ends_space (s : pystr) (a z : pychar) :
  head s = Some a -> isspace a = false -> isspace z = false ->
  strip (s ++ [z; 32]) = s ++ [z].
Proof.
  intros Hh Ha Hz. unfold strip, rstrip, lstrip.
  rewrite (skip_head isspace (s ++ [z; 32]) a) by (destruct s; [discriminate|assumption]).
  rewrite reverse_app. change (reverse [z; 32]) with [32; z]. cbn [app skip].
  change (isspace 32) with true. cbn iota. rewrite Hz.
  rewrite reverse_cons, reverse_involutive. reflexivity.
Qed.

(** The text of the detail: the missing indices, the extra indices, or both,
    each list in increasing order. *)
Lemma mismatch_detail_text (missing extra : gset N) :
  mismatch_detail missing extra =
  if bool_decide (missing ≠ ∅) then
    if bool_decide (extra ≠ ∅) then
      lit "Sections not in categoryMap: " ++ repr_list (sorted missing) ++ lit ". "
      ++ lit "categoryMap references non-existent sections: "
      ++ repr_list (sorted extra) ++ lit "."
    else lit "Sections not in categoryMap: " ++ repr_list (sorted missing) ++ lit "."
  else
    if bool_decide (extra ≠ ∅) then
      lit "categoryMap references non-existent sections: "
      ++ repr_list (sorted extra) ++ lit "."
    else [].
Proof.
  unfold mismatch_detail.
  destruct (bool_decide (missing ≠ ∅)), (bool_decide (extra ≠ ∅)); cbn [app].
  - rewrite <- !app_assoc.
    apply (strip_ends _ 83 46); [reflexivity| |reflexivity|reflexivity].
    change (lit ".") with [46]. rewrite !app_assoc. apply last_snoc.
  - change (lit ". ") with [46; 32]. change (lit ".") with [46].
    rewrite !app_assoc. apply (strip_ends_space _ 83); reflexivity.
  - apply (strip_ends _ 99 46); [reflexivity| |reflexivity|reflexivity].
    change (lit ".") with [46]. rewrite !app_assoc. apply last_snoc.
  - reflexivity.
Qed.

(** *** Lessons of the expected shape are validated to the end *)

Lemma extend_each_total {A B : Type} (f : A -> result (list B)) (xs : list A) :
  Forall (fun x => exists ys, f x = Ok ys) xs -> exists l, extend_each f xs = Ok l.
Proof.
  induction 1 as [|x xs [ys Hx] _ [zs IH]]; simpl.
  - exists []. reflexivity.
  - rewrite Hx, IH. cbn [bind]. eauto.
Qed.

Lemma extend_each_i_total {A B : Type} (f : nat -> A -> result (list B)) (xs : list A) i :
  Forall (fun x => forall j, exists ys, f j x = Ok ys) xs ->
  exists l, extend_each_i f i xs = Ok l.
Proof.
  intros H. revert i. induction H as [|x xs Hx _ IH]; intros i; simpl.
  - exists []. reflexivity.
  - destruct (Hx i) as [ys ->]. destruct (IH (S i)) as [zs ->]. cbn [bind]. eauto.
Qed.

Lemma check_vocab_leaks_total kvs title :
  optional is_text (lookup_key (lit "answer") kvs) ->
  optional (list_of well_formed_entry) (lookup_key (lit "vocab") kvs) ->
  exists l, check_vocab_leaks (JObj kvs) title = Ok l.
Proof.
  intros Ha Hv. unfold check_vocab_leaks, get, key. cbn [bind].
  destruct (negb _ || negb _); [eauto|].
  assert (Hs : exists a, match lookup_key (lit "answer") kvs with
                         | Some v => v | None => JStr [] end = JStr a).
  { destruct (lookup_key (lit "answer") kvs); [exact Ha|eauto]. }
  destruct Hs as [a ->]. cbn [as_str bind].
  assert (Hl : exists l, match lookup_key (lit "vocab") kvs with
                         | Some v => v | None => JArr [] end = JArr l
                         /\ Forall well_formed_entry l).
  { destruct (lookup_key (lit "vocab") kvs); [exact Hv|exists []; auto]. }
  destruct Hl as (l & -> & Hl). cbn [iter bind].
  apply extend_each_total. eapply Forall_impl; [exact Hl|].
  intros e He. unfold vocab_entry_issues.
  destruct e as [| | | | |[|e0 [|e1 es]]|]; eauto.
  destruct He as [w ->]. cbn [as_str bind]. destruct (is_common _); eauto.
Qed.

Lemma check_hint_leaks_total kvs title :
  optional is_text (lookup_key (lit "answer") kvs) ->
  optional (list_of is_text) (lookup_key (lit "hint") kvs) ->
  exists l, check_hint_leaks (JObj kvs) title = Ok l.
Proof.
  intros Ha Hh. unfold check_hint_leaks, get, key. cbn [bind].
  destruct (negb _ || negb _); [eauto|].
  assert (Hs : exists a, match lookup_key (lit "answer") kvs with
                         | Some v => v | None => JStr [] end = JStr a).
  { destruct (lookup_key (lit "answer") kvs); [exact Ha|eauto]. }
  destruct Hs as [a ->]. cbn [as_str bind].
  destruct (is_sentence_answer a); [eauto|].
  assert (Hl : exists l, match lookup_key (lit "hint") kvs with
                         | Some v => v | None => JArr [] end = JArr l
                         /\ Forall is_text l).
  { destruct (lookup_key (lit "hint") kvs); [exact Hh|exists []; auto]. }
  destruct Hl as (l & -> & Hl). cbn [iter bind].
  apply extend_each_i_total. eapply Forall_impl; [exact Hl|].
  intros h [t ->] j. unfold hint_issues. cbn [as_str bind]. eauto.
Qed.

Lemma check_required_fields_total kvs title :
  is_text title -> exists l, check_required_fields (JObj kvs) title = Ok l.
Proof.
  intros [t ->]. unfold check_required_fields, get. cbn [bind].
  destruct (extend_each_total (missing_field_issue (JObj kvs)
              match lookup_key (key "num") kvs with Some v => v | None => default_num end
              (JStr t)) ["text"; "answer"; "translation"]%string) as [issues ->].
  { repeat constructor; unfold missing_field_issue, get; cbn [bind];
      destruct (blank _); eauto. }
  cbn [bind as_str]. destruct (existsb _ _); eauto.
Qed.

Lemma check_hint_count_total kvs title :
  optional (list_of is_text) (lookup_key (lit "hint") kvs) ->
  exists l, check_hint_count (JObj kvs) title = Ok l.
Proof.
  intros Hh. unfold check_hint_count, get, key. cbn [bind].
  assert (Hl : exists l, match lookup_key (lit "hint") kvs with
                         | Some v => v | None => JArr [] end = JArr l).
  { destruct (lookup_key (lit "hint") kvs) as [v|]; [|eauto].
    destruct Hh as (l & -> & _). eauto. }
  destruct Hl as [l ->]. destruct (truthy (JArr l)); [|eauto].
  cbn [len bind]. destruct (negb _); eauto.
Qed.

Lemma question_issues_total title q :
  is_text title -> well_formed_question q -> exists l, question_issues title q = Ok l.
Proof.
  intros Ht (kvs & -> & Ha & Hv & Hh). unfold question_issues.
  destruct (check_vocab_leaks_total kvs title Ha Hv) as [a ->].
  destruct (check_hint_leaks_total kvs title Ha Hh) as [b ->].
  destruct (check_required_fields_total kvs title Ht) as [c ->].
  destruct (check_hint_count_total kvs title Hh) as [d ->].
  cbn [bind]. eauto.
Qed.

Lemma sections_issues_total sections acc :
  Forall well_formed_section sections -> exists acc', sections_issues acc sections = Ok acc'.
Proof.
  intros H. revert acc. induction H as [|sec r (kvs & -> & Ht & Hq) _ IH]; intros acc; simpl.
  - eauto.
  - unfold section_issues, get, key. cbn [bind].
    assert (Hs : is_text match lookup_key (lit "title") kvs with
                         | Some v => v | None => JStr (lit "Unknown section") end).
    { destruct (lookup_key (lit "title") kvs); [exact Ht|unfold is_text; eauto]. }
    assert (Hl : exists l, match lookup_key (lit "questions") kvs with
                           | Some v => v | None => JArr [] end = JArr l
                           /\ Forall well_formed_question l).
    { destruct (lookup_key (lit "questions") kvs); [exact Hq|exists []; auto]. }
    destruct Hl as (l & -> & Hl). cbn [len iter bind].
    destruct (extend_each_total (question_issues
                match lookup_key (lit "title") kvs with
                | Some v => v | None => JStr (lit "Unknown section") end) l) as [issues ->].
    { eapply Forall_impl; [exact Hl|]. intros q. apply question_issues_total. exact Hs. }
    cbn [bind]. apply IH.
Qed.

(** A readable file whose literal parses to a dict with a non-empty list of
    well-formed sections, and whose category mapping, if any, is read
    without error, is validated to the end: the report carries the number
    of sections. *)
Lemma validate_file_total fs path f content kvs sec secs :
  fs_file fs path = Some f -> file_text f = Some content ->
  parse_grammar_data content = Ok (inl (JObj kvs)) ->
  lookup_key (lit "sections") kvs = Some (JArr (sec :: secs)) ->
  Forall well_formed_section (sec :: secs) ->
  (exists cat, category_map_issues content (JArr (sec :: secs)) = Ok cat) ->
  exists issues questions,
    validate_file fs path
    = Ok (basename path, issues,
          Some (Meta (length (sec :: secs)) questions (file_size_bytes f / 1024))).
Proof.
  intros Hf Ht Hp Hl Hwf [cat Hc].
  unfold validate_file, getsize, read_text. rewrite Hf, Ht. cbn [bind].
  rewrite Hp. cbn [bind]. unfold get, key. rewrite Hl. cbn [bind truthy negb].
  rewrite Hc. cbn [bind iter].
  edestruct (sections_issues_total (sec :: secs)) as [[n issues] ->]; [exact Hwf|].
  cbn [bind len fst snd]. eauto.
Qed.

(** The category check as the code reads the mapping.  When validation runs
    to its end on a file with N sections and the pattern [category_map_re]
    finds a mapping, the findings hold no categoryMap_mismatch if the runs of
    digits between the opening brace of the mapping and the first closing
    brace are exactly 0, ..., N-1, and otherwise exactly one, HIGH, whose
    detail lists the missing and the extra numbers in increasing order. *)
Lemma category_map_mismatch_count
    (fs : filesystem) (path name content : pystr) (issues : list finding) (meta : meta)
    (off : nat) (m : found) (referenced : gset N) :
  validate_file fs path = Ok (name, issues, Some meta) ->
  read_text fs path = Ok content ->
  search category_map_re content = Some (off, m) ->
  referenced_indices (group1 content off m) = Ok referenced ->
  let expected := range_set (meta_sections meta) in
  (referenced = expected -> of_kind categoryMap_mismatch issues = [])
  /\ (referenced <> expected ->
      of_kind categoryMap_mismatch issues =
      [Finding categoryMap_mismatch HIGH dash dash
         (mismatch_detail (expected ∖ referenced) (referenced ∖ expected))]).
Proof.
  intros Hv Hr Hs Href expected.
  apply validate_file_complete in Hv
    as (content' & data & sections & size_issues & cat & extra
        & Hr' & _ & _ & Hn & Hc & -> & Hsize & Hextra).
  rewrite Hr in Hr'. injection Hr' as <-.
  unfold category_map_issues in Hc. rewrite Hs, Href, Hn in Hc. cbn [bind] in Hc.
  fold expected in Hc.
  rewrite !of_kind_app, (of_kind_per_question _ Hsize), (of_kind_per_question _ Hextra).
  rewrite app_nil_r. simpl.
  split; intros He.
  - rewrite bool_decide_eq_false_2 in Hc by (intros Hne; exact (Hne He)).
    injection Hc as <-. reflexivity.
  - rewrite bool_decide_eq_true_2 in Hc by exact He.
    injection Hc as <-. reflexivity.
Qed.

Lemma category_map_match prev s m :
  match_at category_map_re prev s = Some m -> starts_with (lit "categoryMap") s = true.
Proof.
  unfold match_at, category_map_re, lits. intros H.
  apply match_here_lits in H as (s' & p & -> & _).
  change (lit "categoryMap:") with (lit "categoryMap" ++ [58]).
  rewrite <- app_assoc. apply starts_with_app.
Qed.

(** C10.  A text in which the name categoryMap does not occur gets no
    categoryMap_mismatch finding, whatever its sections. *)
Theorem no_category_map_no_mismatch (fs : filesystem) (path content : pystr) :
  read_text fs path = Ok content ->
  contains (lit "categoryMap") content = false ->
  of_kind categoryMap_mismatch (emitted (validate_file fs path)) = [].
Proof.
  intros Hr Hno.
  destruct (validate_file fs path) as [[[name issues] [meta|]]|] eqn:Hv; simpl;
    [| |reflexivity].
  - apply validate_file_complete in Hv
      as (content' & data & sections & size_issues & cat & extra
          & Hr' & _ & _ & _ & Hc & -> & Hsize & Hextra).
    rewrite Hr in Hr'. injection Hr' as <-.
    unfold category_map_issues, search in Hc.
    rewrite (search_from_none (fun _ t => starts_with (lit "categoryMap") t)) in Hc.
    + injection Hc as <-. unfold report_issues. cbn [fst snd].
      rewrite !of_kind_app, (of_kind_per_question _ Hsize), (of_kind_per_question _ Hextra).
      reflexivity.
    + intros prev s m. apply category_map_match.
    + rewrite contains_anywhere. exact Hno.
  - unfold validate_file in Hv.
    destruct (getsize fs path) as [size|]; [|discriminate]. cbn [bind] in Hv.
    destruct (read_text fs path) as [c|]; [|discriminate]. cbn [bind] in Hv.
    destruct (parse_grammar_data c) as [[data|err]|]; [| |discriminate]; cbn [bind] in Hv.
    + destruct (get data (key "sections") (JArr [])) as [sections|]; [|discriminate].
      cbn [bind] in Hv.
      destruct (negb (truthy sections)).
      * injection Hv as _ <-. unfold report_issues. cbn [fst snd]. rewrite of_kind_app.
        rewrite of_kind_per_question by (destruct (MAX_HTML_SIZE <? size); one_kind).
        reflexivity.
      * destruct (category_map_issues c sections); [|discriminate]. cbn [bind] in Hv.
        destruct (iter sections); [|discriminate]. cbn [bind] in Hv.
        destruct (sections_issues _ _); [|discriminate]. cbn [bind] in Hv.
        destruct (len sections); discriminate.
    + injection Hv as _ <-. unfold report_issues. cbn [fst snd]. rewrite of_kind_app.
      rewrite of_kind_per_question by (destruct (MAX_HTML_SIZE <? size); one_kind).
      reflexivity.
Qed.

(** *** The order of iteration *)

(** [sorted] gives the same list whatever the order in which the set is
    iterated. *)
Lemma sorted_any_order (o1 o2 : SetOrder) (s : gset N) : @sorted o1 s = @sorted o2 s.
Proof.
  unfold sorted. apply (Sorted_unique N.le).
  - apply (Sorted_merge_sort N.le).
  - apply (Sorted_merge_sort N.le).
  - rewrite !merge_sort_Permutation, !set_iter_perm. reflexivity.
Qed.

Lemma mismatch_detail_any_order (o1 o2 : SetOrder) (missing extra : gset N) :
  @mismatch_detail o1 missing extra = @mismatch_detail o2 missing extra.
Proof.
  unfold mismatch_detail.
  rewrite (sorted_any_order o1 o2 missing), (sorted_any_order o1 o2 extra). reflexivity.
Qed.

Lemma category_map_issues_any_order (o1 o2 : SetOrder) content sections :
  @category_map_issues rt o1 content sections = @category_map_issues rt o2 content sections.
Proof.
  unfold category_map_issues.
  destruct (search category_map_re content) as [[off m]|]; [|reflexivity].
  destruct (referenced_indices _) as [referenced|]; [|reflexivity]. cbn [bind].
  destruct (len sections) as [n|]; [|reflexivity]. cbn [bind].
  rewrite (mismatch_detail_any_order o1 o2). reflexivity.
Qed.

(** C9.  Two runs of the validation of a file that see the same bytes (the
    same size, the same text) return the same findings, or raise the same
    exception: whatever the path and the rest of the file system of each
    run, and whatever the order in which each run iterates over its sets.
    The one place where a set is listed, the detail of the category check,
    sorts it first. *)
Theorem validate_file_deterministic
    (o1 o2 : SetOrder) (fs1 fs2 : filesystem) (path1 path2 : pystr) :
  fs_file fs1 path1 = fs_file fs2 path2 ->
  findings_of (@validate_file rt o1 fs1 path1) = findings_of (@validate_file rt o2 fs2 path2).
Proof.
  intros H. unfold findings_of, validate_file, getsize, read_text. rewrite H.
  destruct (fs_file fs2 path2) as [[size text]|]; [|reflexivity]. cbn [bind file_size_bytes file_text].
  destruct text as [content|]; [|reflexivity]. cbn [bind].
  destruct (parse_grammar_data content) as [[data|err]|]; [|reflexivity..]. cbn [bind].
  destruct (get data (key "sections") (JArr [])) as [sections|]; [|reflexivity].
  cbn [bind].
  destruct (negb (truthy sections)); [reflexivity|].
  rewrite (category_map_issues_any_order o1 o2).
  destruct (category_map_issues content sections); [|reflexivity]. cbn [bind].
  destruct (iter sections); [|reflexivity]. cbn [bind].
  destruct (sections_issues _ _); [|reflexivity]. cbn [bind].
  destruct (len sections); reflexivity.
Qed.

(** *** The run *)

Ltac step_bind H :=
  match type of H with
  | bind ?m _ = _ => destruct m; cbn [bind] in H; [|discriminate]
  end.

(** Only a report without findings is answered by [True]. *)
Lemma print_report_true (r : report) : print_report r = Ok true -> report_issues r = [].
Proof.
  unfold print_report. destruct (report_issues r) as [|x l]; [reflexivity|].
  intros H. exfalso. repeat step_bind H. discriminate.
Qed.

Lemma add_report_passed (t : tally) : add_report t true [] = t.
Proof. destruct t. unfold add_report. cbn. f_equal; lia. Qed.

Lemma validate_all_passes fs files t :
  Forall (passes fs) files -> validate_all fs files t = Ok t.
Proof.
  induction 1 as [|f files (r & Hv & Hi & Hp) _ IH]; cbn [validate_all]; [reflexivity|].
  rewrite Hv. cbn [bind]. rewrite Hp. cbn [bind]. rewrite Hi, add_report_passed. exact IH.
Qed.

Lemma validate_all_passed fs files t t' :
  validate_all fs files t = Ok t' -> all_passed t' = true ->
  all_passed t = true /\ Forall (passes fs) files.
Proof.
  revert t. induction files as [|f files IH]; intros t H Hp; cbn [validate_all] in H.
  - injection H as <-. auto.
  - destruct (validate_file fs f) as [r|] eqn:Hv; [|discriminate]. cbn [bind] in H.
    destruct (print_report r) as [passed|] eqn:Hr; [|discriminate]. cbn [bind] in H.
    destruct (IH _ H Hp) as [Ha Hall]. unfold add_report in Ha. cbn [all_passed] in Ha.
    destruct passed; [|discriminate]. cbn in Ha. split; [exact Ha|].
    constructor; [|exact Hall]. exists r. split; [exact Hv|].
    split; [apply print_report_true, Hr|exact Hr].
Qed.

(** The loop and its two frames end with 0 exactly when every line could be
    written and every file passes. *)
Lemma main_loop_success fs files :
  main_loop fs files = Ok 0%Z <->
  print_header files = Ok tt /\ Forall (passes fs) files
  /\ print_summary (Tally true 0 0 0) = Ok tt.
Proof.
  unfold main_loop. split.
  - intros H. destruct (print_header files) as [[]|]; [|discriminate]. cbn [bind] in H.
    destruct (validate_all fs files _) as [t|] eqn:Hv; [|discriminate]. cbn [bind] in H.
    destruct (print_summary t) as [[]|] eqn:Hs; [|discriminate]. cbn [bind] in H.
    destruct (all_passed t) eqn:Hp; [|discriminate].
    destruct (validate_all_passed _ _ _ _ Hv Hp) as [_ Hall].
    rewrite (validate_all_passes _ _ _ Hall) in Hv. injection Hv as <-. auto.
  - intros (Hh & Hall & Hs). rewrite Hh. cbn [bind].
    rewrite (validate_all_passes _ _ _ Hall). cbn [bind]. rewrite Hs. reflexivity.
Qed.

Lemma main_loop_status fs files c : main_loop fs files = Ok c -> c = 0%Z \/ c = 1%Z.
Proof.
  unfold main_loop. intros H. repeat step_bind H. injection H as <-.
  destruct (all_passed _); auto.
Qed.

(** A run ends with status 0 or 1. *)
Lemma exit_status_main fs argv :
  exit_status (main fs argv) = 0%Z \/ exit_status (main fs argv) = 1%Z.
Proof.
  unfold main. destruct (select_files fs argv) as [[[|f files]|]|]; cbn [bind].
  - destruct (print _) as [[]|]; cbn; auto.
  - destruct (main_loop fs (f :: files)) as [c|] eqn:Hm; cbn; [|auto].
    apply (main_loop_status _ _ _ Hm).
  - cbn. auto.
  - cbn. auto.
Qed.

Lemma files_of_args_some fs (args files : list pystr) :
  files_of_args fs args = Ok (Some files) <->
  files = args /\ Forall (fun arg => isfile fs arg = true) args.
Proof.
  revert files. induction args as [|arg r IH]; intros files; cbn [files_of_args].
  - split.
    + intros [= <-]. auto.
    + intros [-> _]. reflexivity.
  - destruct (isfile fs arg) eqn:Ha.
    + destruct (files_of_args fs r) as [[rest|]|] eqn:Hr; cbn [bind].
      * destruct (proj1 (IH rest) eq_refl) as [-> Hall]. split.
        -- intros [= <-]. auto.
        -- intros [-> _]. reflexivity.
      * split; [discriminate|]. intros [-> Hall]. inversion Hall as [|? ? _ Hrest]; subst.
        assert (Hsome : Ok (@None (list pystr)) = Ok (Some r)) by (apply IH; auto).
        discriminate.
      * split; [discriminate|]. intros [-> Hall]. inversion Hall as [|? ? _ Hrest]; subst.
        assert (Hsome : @Raise (option (list pystr)) e = Ok (Some r)) by (apply IH; auto).
        discriminate.
    + split.
      * destruct (print _); cbn [bind]; discriminate.
      * intros [_ Hall]. inversion Hall; subst. congruence.
Qed.

(** The selection of the files, whatever can be printed. *)
Lemma select_files_selected fs (argv files : list pystr) :
  select_files fs argv = Ok (Some files) <-> selected fs argv files.
Proof.
  unfold select_files, selected. destruct (bool_decide (1 < length argv)%nat).
  - rewrite files_of_args_some. split.
    + intros [-> H]. auto.
    + intros [-> H]. auto.
  - destruct (fs_isdir fs DUAL_SCOPE_DIR); cbn [negb].
    + split.
      * intros [= <-]. auto.
      * intros [_ ->]. reflexivity.
    + split.
      * destruct (print _); cbn [bind]; discriminate.
      * intros [H _]. discriminate.
Qed.

(** [main] ends with status 0 only through the loop, on at least one file. *)
Lemma main_success fs argv :
  exit_status (main fs argv) = 0%Z <->
  exists files, selected fs argv files /\ files <> []
    /\ main_loop fs files = Ok 0%Z.
Proof.
  unfold main. split.
  - destruct (select_files fs argv) as [[[|f files]|]|] eqn:Hs; cbn [bind].
    + destruct (print _) as [[]|]; cbn; discriminate.
    + destruct (main_loop fs (f :: files)) as [c|] eqn:Hm; cbn; [|discriminate].
      intros ->. exists (f :: files). split; [apply select_files_selected, Hs|].
      split; [discriminate|exact Hm].
    + cbn. discriminate.
    + cbn. discriminate.
  - intros (files & Hs & Hne & Hm). apply select_files_selected in Hs. rewrite Hs.
    cbn [bind]. destruct files as [|f files]; [contradiction|]. rewrite Hm. reflexivity.
Qed.

Lemma print_all (s : pystr) : (forall c, encodable c = true) -> print s = Ok tt.
Proof.
  intros H. unfold print.
  assert (Hs : forallb encodable (s ++ [10]) = true)
    by (apply List.forallb_forall; intros c _; apply H).
  rewrite Hs. reflexivity.
Qed.

Lemma passes_all fs f :
  (forall c, encodable c = true) ->
  (passes fs f <-> exists r, validate_file fs f = Ok r /\ report_issues r = []).
Proof.
  intros H. split.
  - intros (r & Hv & Hi & _). eauto.
  - intros (r & Hv & Hi). exists r. split; [exact Hv|]. split; [exact Hi|].
    unfold print_report. rewrite Hi. rewrite !print_all by exact H. cbn [bind].
    unfold print_meta. destruct (report_meta r); [rewrite print_all by exact H|]; reflexivity.
Qed.

(** C8, as the code has it.  A run ends with status 0 exactly when it has
    selected at least one file, every selected file was validated without
    an exception and without a finding, and every line of the report could
    be written to standard output.  Where standard output has every code
    point, the last condition falls away.  A finding of any severity, LOW
    included, in a selected file makes the status 1, and so does an
    exception raised while a selected file is validated, although it
    produces no finding. *)
Theorem exit_status_success_iff (fs : filesystem) (argv : list pystr) :
  (exit_status (main fs argv) = 0%Z <->
   exists files,
     selected fs argv files /\ files <> []
     /\ print_header files = Ok tt
     /\ Forall (passes fs) files
     /\ print_summary (Tally true 0 0 0) = Ok tt)
  /\ ((forall c, encodable c = true) ->
      (exit_status (main fs argv) = 0%Z <->
       exists files,
         selected fs argv files /\ files <> []
         /\ Forall (fun f => exists r, validate_file fs f = Ok r /\ report_issues r = [])
              files))
  /\ (forall files f r x,
        selected fs argv files -> f ∈ files ->
        validate_file fs f = Ok r -> x ∈ report_issues r ->
        exit_status (main fs argv) = 1%Z)
  /\ (forall files f e,
        selected fs argv files -> f ∈ files ->
        validate_file fs f = Raise e ->
        exit_status (main fs argv) = 1%Z).
Proof.
  assert (H0 : exit_status (main fs argv) = 0%Z <->
               exists files,
                 selected fs argv files /\ files <> []
                 /\ print_header files = Ok tt
                 /\ Forall (passes fs) files
                 /\ print_summary (Tally true 0 0 0) = Ok tt).
  { rewrite main_success. split.
    - intros (files & Hs & Hne & Hm). apply main_loop_success in Hm. eauto.
    - intros (files & Hs & Hne & Hm). exists files. rewrite main_loop_success. auto. }
  assert (Hfail : forall files f,
            selected fs argv files -> f ∈ files -> ~ passes fs f ->
            exit_status (main fs argv) = 1%Z).
  { intros files f Hs Hf Hnot.
    destruct (exit_status_main fs argv) as [Hz|H1]; [|exact H1].
    apply H0 in Hz as (files' & Hs' & _ & _ & Hall & _).
    apply select_files_selected in Hs, Hs'. rewrite Hs in Hs'. injection Hs' as <-.
    rewrite Forall_forall in Hall. destruct (Hnot (Hall f Hf)). }
  split; [exact H0|]. split; [|split].
  - intros Hall. rewrite H0. split.
    + intros (files & Hs & Hne & _ & Hp & _). exists files.
      split; [exact Hs|]. split; [exact Hne|].
      eapply Forall_impl; [exact Hp|]. intros f. apply passes_all, Hall.
    + intros (files & Hs & Hne & Hp). exists files.
      split; [exact Hs|]. split; [exact Hne|].
      split; [unfold print_header; rewrite !print_all by exact Hall; reflexivity|].
      split; [eapply Forall_impl; [exact Hp|]; intros f; apply passes_all, Hall|].
      unfold print_summary. cbn [all_passed]. rewrite !print_all by exact Hall. reflexivity.
  - intros files f r x Hs Hf Hv Hx. apply (Hfail files f Hs Hf).
    intros (r' & Hv' & Hi & _). rewrite Hv in Hv'. injection Hv' as <-.
    rewrite Hi in Hx. inversion Hx.
  - intros files f e Hs Hf Hv. apply (Hfail files f Hs Hf).
    intros (r' & Hv' & _). rewrite Hv in Hv'. discriminate.
Qed.

End FileChecks.

(** The category check on [lesson_doc]: the mapping names 0 and 1 and there
    is one section, so the one finding names section 1 as extra. *)
Lemma category_map_mismatch_count_witness :
  let issues :=
    [Finding categoryMap_mismatch HIGH dash dash
       (lit "categoryMap references non-existent sections: [1].")] in
  let referenced : gset N := {[ 0; 1 ]} in
  let expected := range_set 1 in
  (referenced = expected -> of_kind categoryMap_mismatch issues = [])
  /\ (referenced <> expected ->
      of_kind categoryMap_mismatch issues =
      [Finding categoryMap_mismatch HIGH dash dash
         (@mismatch_detail listed_order (expected ∖ referenced) (referenced ∖ expected))]).
Proof.
  cbv zeta.
  apply (@category_map_mismatch_count ascii_runtime listed_order lesson_fs lesson_path
           (lit "Lesson 1.html") lesson_doc
           [Finding categoryMap_mismatch HIGH dash dash
              (lit "categoryMap references non-existent sections: [1].")]
           (Meta 1 1 0) 226 (Found 30 14 29) {[ 0; 1 ]}).
  - vm_compute. reflexivity.
  - vm_compute. reflexivity.
  - vm_compute. reflexivity.
  - vm_compute. reflexivity.
Defined.

(** C7.  The category check takes every run of digits between the opening
    brace of the mapping and the first closing brace for a section index,
    and skips a mapping with nothing between its braces.  In
    [lesson_doc_digit_key] the mapping [{ cat1: [0] }] references section
    0 alone and the lesson has one section, yet the digit of the key gives
    a finding on a section 1; in [lesson_doc_empty_map] the mapping [{}]
    references no section of the one, yet there is no finding. *)
Theorem category_map_reads_digits_of_keys :
  @validate_file ascii_runtime listed_order
    (single_file lesson_path (text_file lesson_doc_digit_key)) lesson_path
  = Ok (lit "Lesson 1.html",
        [Finding categoryMap_mismatch HIGH dash dash
           (lit "categoryMap references non-existent sections: [1].")],
        Some (Meta 1 1 0))
  /\ @validate_file ascii_runtime listed_order
       (single_file lesson_path (text_file lesson_doc_empty_map)) lesson_path
     = Ok (lit "Lesson 1.html", [], Some (Meta 1 1 0)).
Proof. split; vm_compute; reflexivity. Qed.

(** C8, counterexample.  A run over one file that is not UTF-8: the
    validation raises, no finding is produced, and the status is 1. *)
Lemma run_fails_without_finding :
  emitted (@validate_file ascii_runtime listed_order unreadable_fs lesson_path) = []
  /\ @validate_file ascii_runtime listed_order unreadable_fs lesson_path
     = Raise UnicodeDecodeError
  /\ @main ascii_runtime listed_order utf8_output unreadable_fs [lit "validate"; lesson_path]
     = Uncaught UnicodeDecodeError
  /\ exit_status
       (@main ascii_runtime listed_order utf8_output unreadable_fs
          [lit "validate"; lesson_path])
     = 1%Z.
Proof. split; [|split; [|split]]; vm_compute; reflexivity. Qed.

(** The witness of C9: the same bytes under two paths in two file systems,
    with the sets iterated in opposite orders.  The mapping names the
    sections 5, 0 and 3 of a lesson of one section. *)
Lemma validate_file_deterministic_witness :
  findings_of (@validate_file ascii_runtime listed_order
                 (single_file lesson_path (text_file lesson_doc_scattered)) lesson_path)
  = findings_of (@validate_file ascii_runtime reversed_order
                   (single_file copy_path (text_file lesson_doc_scattered)) copy_path).
Proof.
  apply (@validate_file_deterministic ascii_runtime listed_order reversed_order
           (single_file lesson_path (text_file lesson_doc_scattered))
           (single_file copy_path (text_file lesson_doc_scattered)) lesson_path copy_path).
  vm_compute. reflexivity.
Defined.

(** The witness of C10: the lesson without the mapping. *)
Lemma no_category_map_no_mismatch_witness :
  of_kind categoryMap_mismatch
    (emitted (@validate_file ascii_runtime listed_order unmapped_fs lesson_path))
  = [].
Proof.
  apply (@no_category_map_no_mismatch ascii_runtime listed_order unmapped_fs lesson_path
           lesson_doc_unmapped).
  - vm_compute. reflexivity.
  - vm_compute. reflexivity.
Defined.

(** ** Runs on the example lessons *)

(** The lesson whose mapping names section 0 alone passes, and the run over
    it ends with status 0 when standard output is in UTF-8. *)
Example exact_lesson_passes :
  @validate_file ascii_runtime listed_order exact_fs lesson_path
  = Ok (lit "Lesson 1.html", [], Some (Meta 1 1 0))
  /\ @main ascii_runtime listed_order utf8_output exact_fs [lit "validate"; lesson_path]
     = Exit 0.
Proof. split; vm_compute; reflexivity. Qed.

(** The same run with a standard output in ASCII: the check mark of the
    report cannot be written, and the run ends with a traceback. *)
Example exact_lesson_ascii_output :
  @main ascii_runtime listed_order ascii_output exact_fs [lit "validate"; lesson_path]
  = Uncaught UnicodeEncodeError.
Proof. vm_compute. reflexivity. Qed.

(** The lesson whose mapping names a section too many fails the run. *)
Example mismatched_lesson_fails :
  @main ascii_runtime listed_order utf8_output lesson_fs [lit "validate"; lesson_path]
  = Exit 1.
Proof. vm_compute. reflexivity. Qed.

(** In both orders of iteration the detail of the scattered mapping lists
    the sections in increasing order. *)
Example scattered_mapping_sorted :
  @validate_file ascii_runtime reversed_order
    (single_file lesson_path (text_file lesson_doc_scattered)) lesson_path
  = Ok (lit "Lesson 1.html",
        [Finding categoryMap_mismatch HIGH dash dash
           (lit "categoryMap references non-existent sections: [3, 5].")],
        Some (Meta 1 1 0)).
Proof. vm_compute. reflexivity. Qed.

(** Without an argument and without the lesson directory, the run ends with
    status 1 before any file is read. *)
Example no_directory_fails :
  @main ascii_runtime listed_order utf8_output exact_fs [lit "validate"] = Exit 1.
Proof. vm_compute. reflexivity. Qed.

(** The first scenario of the specification: the answer [b. honest] beside
    the vocabulary word [honest] gives one HIGH vocab_leak finding. *)
Example honest_vocab_leak :
  @check_vocab_leaks ascii_runtime
    (JObj [(key "answer", JStr (lit "b. honest"));
           (key "vocab", JArr [JArr [JStr (lit "honest"); JStr (lit "truthful")]]);
           (key "hint", JArr [])])
    (JStr (lit "A"))
  = Ok [Finding vocab_leak HIGH default_num (JStr (lit "A"))
          (lit "Vocab 'honest' contains answer 'honest'")].
Proof. vm_compute. reflexivity. Qed.
